(** * classical-map: the filtering and selection engine of the SiteMap component

    A shallow embedding of the two SiteMap components of the repository:
    the doc_id-keyed component (module [SiteMap]) and [SiteMap_v4.js]
    (module [SiteMapV4]).  JavaScript values are modelled as follows.

    - a string is a [string] (its UTF-8 bytes); [===] on strings is
      [String.eqb]; what JavaScript does by UTF-16 code unit (the order of
      [sort], [split], [slice]) goes through [units];
    - a value that is a string or [null] is an [option string]; its
      truthiness is [truthy]: [null] and the empty string are falsy;
    - an array is a [list]; [filter], [map], [some], [find], [includes] are
      the list functions of the same name;
    - a [Set] of strings is the list of its members in insertion order;
    - an expression that can throw returns a [result];
    - the React state is a record, and every handler is a function from
      state to state. *)

From Stdlib Require Import String Ascii List Bool Arith ZArith Lia Sorted.
Import ListNotations.
Local Open Scope string_scope.
Local Open Scope list_scope.

Set Implicit Arguments.

(** ** JavaScript preliminaries *)

(** The only exception the modelled code can raise: reading a property
    of [undefined]. *)
Inductive jsError : Type :=
| TypeError.

Inductive result (A : Type) : Type :=
| Ok (a : A)
| Throw (e : jsError).

Arguments Ok {A} a.
Arguments Throw {A} e.

(** Truthiness of a value that is a string or [null]. *)
Definition truthy (v : option string) : bool :=
  match v with
  | None => false
  | Some s => negb (String.eqb s "")
  end.

(** [arr.includes(v)] on an array of strings. *)
Definition includes (arr : list string) (v : string) : bool :=
  existsb (String.eqb v) arr.

Module JsSet.

(** A [Set] of strings: its members, without repetition, in insertion order. *)
Definition t : Type := list string.

Definition empty : t := [].

Definition has (s : t) (v : string) : bool := existsb (String.eqb v) s.

Definition add (v : string) (s : t) : t := if has s v then s else s ++ [v].

Definition delete (v : string) (s : t) : t :=
  filter (fun x => negb (String.eqb x v)) s.

Definition size (s : t) : nat := length s.

(** [new Set(iterable)] *)
Definition of_list (l : list string) : t := fold_left (fun s v => add v s) l empty.

(** [Array.from(set)], [[...set]] *)
Definition to_list (s : t) : list string := s.

End JsSet.

(** The code points of a UTF-8 byte sequence.  A lead byte with its
    continuation bytes gives one code point; a byte that is no part of such
    a group (which no string of the program's input has) counts for
    itself. *)
Fixpoint codePoints (bs : list N) : list N :=
  match bs with
  | [] => []
  | b0 :: r0 =>
      if (b0 <? 192)%N then b0 :: codePoints r0
      else if (b0 <? 224)%N then
        match r0 with
        | b1 :: r1 => ((b0 mod 32) * 64 + b1 mod 64)%N :: codePoints r1
        | _ => b0 :: codePoints r0
        end
      else if (b0 <? 240)%N then
        match r0 with
        | b1 :: b2 :: r2 =>
            ((b0 mod 16) * 4096 + (b1 mod 64) * 64 + b2 mod 64)%N :: codePoints r2
        | _ => b0 :: codePoints r0
        end
      else
        match r0 with
        | b1 :: b2 :: b3 :: r3 =>
            ((b0 mod 8) * 262144 + (b1 mod 64) * 4096 + (b2 mod 64) * 64 + b3 mod 64)%N
              :: codePoints r3
        | _ => b0 :: codePoints r0
        end
  end.

(** The UTF-16 code units of a code point: itself in the basic plane, a
    surrogate pair above it. *)
Definition unitsOfCodePoint (cp : N) : list N :=
  if (cp <? 65536)%N then [cp]
  else [(55296 + (cp - 65536) / 1024)%N; (56320 + (cp - 65536) mod 1024)%N].

(** The UTF-16 code units of a string, which is what JavaScript indexes,
    slices and compares. *)
Definition units (s : string) : list N :=
  flat_map unitsOfCodePoint (codePoints (map N_of_ascii (list_ascii_of_string s))).

(** The comparison of two strings by [<]: lexicographic on code units. *)
Fixpoint compareUnits (x y : list N) : comparison :=
  match x, y with
  | [], [] => Eq
  | [], _ :: _ => Lt
  | _ :: _, [] => Gt
  | a :: x', b :: y' =>
      match N.compare a b with
      | Eq => compareUnits x' y'
      | c => c
      end
  end.

(** [!(b < a)] *)
Definition codeUnitLeb (a b : string) : bool :=
  match compareUnits (units a) (units b) with
  | Gt => false
  | _ => true
  end.

(** [Array.prototype.sort()] with the default comparison, which orders
    strings by their UTF-16 code units, as a stable insertion sort. *)
Fixpoint sort_insert (v : string) (l : list string) : list string :=
  match l with
  | [] => [v]
  | x :: l' => if codeUnitLeb v x then v :: l else x :: sort_insert v l'
  end.

Definition sort (l : list string) : list string :=
  fold_right sort_insert [] l.

(** ** Data model *)

(** The attribute names used as keys of a building. *)
Inductive attr : Type :=
| Order
| Morphology
| Age
| Date.

Record building : Type := {
  doc_id : string;
  id : string;
  order : list string;
  morphology : list string;
  age : list string;
  date : list string;
  url : string;
  style_evidence : list string;
  date_evidence : list string
}.

(** [b[attr]] *)
Definition get (b : building) (a : attr) : list string :=
  match a with
  | Order => order b
  | Morphology => morphology b
  | Age => age b
  | Date => date b
  end.

(** A feature [{ type, geometry, properties: { site, buildings } }]; the
    geometry is opaque to the engine. *)
Record feature : Type := {
  site : string;
  geometry : string;
  buildings : list building
}.

(** [{ ...f, properties: { ...f.properties, buildings: bs } }] *)
Definition withBuildings (f : feature) (bs : list building) : feature :=
  {| site := site f; geometry := geometry f; buildings := bs |}.

(** A [FeatureCollection]. *)
Record dataset : Type := {
  features : list feature
}.

(** ** The period table *)

Record segment : Type := {
  seg_id : string;
  label : string;
  start : Z;
  end_ : Z;
  tags : list string
}.

Definition timelineSegments : list segment :=
  [ {| seg_id := "archaic"; label := "Archaic & Early";
       start := (-800)%Z; end_ := (-480)%Z;
       tags := ["Archaic"; "Late Archaic"; "Peisistratid"] |};
    {| seg_id := "classical"; label := "Classical";
       start := (-480)%Z; end_ := (-323)%Z;
       tags := ["Early Classical"; "Periclean"; "Classical"; "Lycurgan Period";
                "Late Classical"] |};
    {| seg_id := "hellenistic"; label := "Hellenistic";
       start := (-323)%Z; end_ := (-30)%Z;
       tags := ["Hellenistic"; "Early Hellenistic"; "Late Hellenistic"; "Seleucid";
                "Ptolemaic"; "Pergamene"] |};
    {| seg_id := "republican"; label := "Republican";
       start := (-509)%Z; end_ := (-27)%Z;
       tags := ["Early Republican"; "Middle Republican"; "Late Republican";
                "Republican"; "Sullan"; "Caesarian Period"; "Triumviral Period"] |};
    {| seg_id := "earlyEmpire"; label := "Early Empire";
       start := (-27)%Z; end_ := (192)%Z;
       tags := ["Augustan"; "Tiberian"; "Julio-Claudian"; "Flavian";
                "Nerva–Trajanian"; "Hadrian"; "Antonine"] |};
    {| seg_id := "lateEmpire"; label := "Late Empire";
       start := (193)%Z; end_ := (476)%Z;
       tags := ["Severan"; "Crisis of 3rd Century"; "Diocletian-Tetrarch";
                "Constantinian"; "Late Roman"; "Late Antique"] |} ].

(** [timelineSegments.find(s => s.id === periodId)] *)
Definition findSegment (periodId : string) : option segment :=
  find (fun s => String.eqb (seg_id s) periodId) timelineSegments.

(** [new Set(timelineSegments.find(s => s.id === periodId).tags)]: reading
    [.tags] of the [undefined] that [find] returns for an unknown id throws. *)
Definition tagsOf (periodId : string) : result JsSet.t :=
  match findSegment periodId with
  | Some s => Ok (JsSet.of_list (tags s))
  | None => Throw TypeError
  end.

(** [selectedPeriod ? new Set(...) : null] *)
Definition periodTagsOf (selectedPeriod : option string) : result (option JsSet.t) :=
  match selectedPeriod with
  | Some p =>
      if truthy selectedPeriod then
        match tagsOf p with
        | Ok s => Ok (Some s)
        | Throw e => Throw e
        end
      else Ok None
  | None => Ok None
  end.

(** ** The filter engine, shared by both components

    The two components differ in the list of attribute keys of the loop and
    in the shape of the [filters] object; [K] is the type of its keys. *)

Section Engine.

Variable K : Type.
(** the attribute of a building a key names *)
Variable attrOf : K -> attr.
(** the loop's literal array of keys *)
Variable attrs : list K.
(** [filters[attr]] *)
Variable filters : K -> JsSet.t.

(** [set.size && ![...set].some(v => b[attr].includes(v))] *)
Definition attrFails (b : building) (k : K) : bool :=
  let set := filters k in
  negb (Nat.eqb (JsSet.size set) 0)
  && negb (existsb (fun v => includes (get b (attrOf k)) v) (JsSet.to_list set)).

(** The [for] loop of the callback: [true] when it runs to its end,
    [false] when some iteration returns false. *)
Fixpoint attrLoop (b : building) (ks : list K) : bool :=
  match ks with
  | [] => true
  | k :: ks' => if attrFails b k then false else attrLoop b ks'
  end.

(** The callback of [f.properties.buildings.filter]. *)
Definition keepBuilding (periodTags : option JsSet.t) (b : building) : bool :=
  if attrLoop b attrs then
    match periodTags with
    | Some pt =>
        if negb (existsb (fun tag => JsSet.has pt tag) (age b)) then false else true
    | None => true
    end
  else false.

(** The callback of [data.features.map]: [Some] of the rebuilt feature, or
    [None] for [null]. *)
Definition mapFeature (periodTags : option JsSet.t) (f : feature) : option feature :=
  let bs := filter (keepBuilding periodTags) (buildings f) in
  if negb (Nat.eqb (length bs) 0) then Some (withBuildings f bs) else None.

(** [arr.map(cb).filter(Boolean)] for a callback returning an object or [null]. *)
Fixpoint mapFilterBoolean (A B : Type) (cb : A -> option B) (arr : list A) : list B :=
  match arr with
  | [] => []
  | x :: arr' =>
      match cb x with
      | Some y => y :: mapFilterBoolean cb arr'
      | None => mapFilterBoolean cb arr'
      end
  end.

(** The body of the [filteredData] memo. *)
Definition filteredDataOf (data : option dataset) (selectedPeriod : option string)
  : result dataset :=
  match data with
  | None => Ok {| features := [] |}
  | Some d =>
      match periodTagsOf selectedPeriod with
      | Throw e => Throw e
      | Ok periodTags =>
          Ok {| features := mapFilterBoolean (mapFeature periodTags) (features d) |}
      end
  end.

End Engine.

(** [f.properties.site === selectedSite], [selectedSite] a string or [null] *)
Definition siteIs (selectedSite : option string) (f : feature) : bool :=
  match selectedSite with
  | Some s => String.eqb (site f) s
  | None => false
  end.

(** The allowed morphology filter values. *)
Definition allowedMorphologies : list string :=
  [ "prostyle"; "amphiprostyle"; "pseudoperipteral"; "peripteral"; "dipteral";
    "pseudodipteral"; "distyle in antis"; "tetrastyle"; "hexastyle";
    "octastyle"; "nonastyle"; "peristyle"; "linear"; "U-shape"; "L-shape" ].

(** The three sets [o], [m], [a] filled by the nested [forEach] of
    [allOptions], threaded as one state. *)
Definition optionSets : Type := (JsSet.t * JsSet.t * JsSet.t)%type.

Definition addAll (vs : list string) (s : JsSet.t) : JsSet.t :=
  fold_left (fun s v => JsSet.add v s) vs s.

Definition collectBuilding (acc : optionSets) (b : building) : optionSets :=
  let '(o, m, a) := acc in
  (addAll (order b) o, addAll (morphology b) m, addAll (age b) a).

Definition collectOptions (d : dataset) : optionSets :=
  fold_left (fun acc f => fold_left collectBuilding (buildings f) acc)
            (features d) (JsSet.empty, JsSet.empty, JsSet.empty).

(** The object [{ order, morphology, age }] returned by [allOptions]. *)
Record options : Type := {
  orderOptions : list string;
  morphologyOptions : list string;
  ageOptions : list string
}.

(** The [dropdownOpen] flags. *)
Record dropdowns : Type := {
  orderOpen : bool;
  morphologyOpen : bool;
  ageOpen : bool
}.

(** ** The doc_id-keyed component *)

Module SiteMap.

(** The keys of the [filters] object. *)
Inductive key : Type :=
| KOrder
| KMorphology
| KAge.

Definition attrOf (k : key) : attr :=
  match k with
  | KOrder => Order
  | KMorphology => Morphology
  | KAge => Age
  end.

(** [{ order: Set, morphology: Set, age: Set }] *)
Record filterState : Type := {
  orderSet : JsSet.t;
  morphologySet : JsSet.t;
  ageSet : JsSet.t
}.

(** [filters[attr]] *)
Definition lookup (fs : filterState) (k : key) : JsSet.t :=
  match k with
  | KOrder => orderSet fs
  | KMorphology => morphologySet fs
  | KAge => ageSet fs
  end.

(** [next[attr] = set] on a copy of [fs] *)
Definition assign (fs : filterState) (k : key) (set : JsSet.t) : filterState :=
  match k with
  | KOrder =>
      {| orderSet := set; morphologySet := morphologySet fs; ageSet := ageSet fs |}
  | KMorphology =>
      {| orderSet := orderSet fs; morphologySet := set; ageSet := ageSet fs |}
  | KAge =>
      {| orderSet := orderSet fs; morphologySet := morphologySet fs; ageSet := set |}
  end.

Definition noFilters : filterState :=
  {| orderSet := JsSet.empty; morphologySet := JsSet.empty; ageSet := JsSet.empty |}.

(** The component's state (the [useState] cells). *)
Record state : Type := {
  data : option dataset;
  selectedSite : option string;
  selectedBuildingDocId : option string;
  selectedPeriod : option string;
  hoveredSegment : option string;
  filters : filterState;
  dropdownOpen : dropdowns
}.

Definition setSelectedSite (v : option string) (st : state) : state :=
  {| data := data st; selectedSite := v;
     selectedBuildingDocId := selectedBuildingDocId st;
     selectedPeriod := selectedPeriod st; hoveredSegment := hoveredSegment st;
     filters := filters st; dropdownOpen := dropdownOpen st |}.

Definition setSelectedBuildingDocId (v : option string) (st : state) : state :=
  {| data := data st; selectedSite := selectedSite st;
     selectedBuildingDocId := v;
     selectedPeriod := selectedPeriod st; hoveredSegment := hoveredSegment st;
     filters := filters st; dropdownOpen := dropdownOpen st |}.

Definition setSelectedPeriod (v : option string) (st : state) : state :=
  {| data := data st; selectedSite := selectedSite st;
     selectedBuildingDocId := selectedBuildingDocId st;
     selectedPeriod := v; hoveredSegment := hoveredSegment st;
     filters := filters st; dropdownOpen := dropdownOpen st |}.

Definition setFilters (v : filterState) (st : state) : state :=
  {| data := data st; selectedSite := selectedSite st;
     selectedBuildingDocId := selectedBuildingDocId st;
     selectedPeriod := selectedPeriod st; hoveredSegment := hoveredSegment st;
     filters := v; dropdownOpen := dropdownOpen st |}.

(** [allOptions] *)
Definition allOptions (d : option dataset) : options :=
  match d with
  | None => {| orderOptions := []; morphologyOptions := []; ageOptions := [] |}
  | Some d =>
      let '(o, m, a) := collectOptions d in
      {| orderOptions := sort (JsSet.to_list o);
         morphologyOptions :=
           sort (filter (fun v => includes allowedMorphologies v) (JsSet.to_list m));
         ageOptions := sort (JsSet.to_list a) |}
  end.

(** The loop's [['order','morphology','age']]. *)
Definition filterAttrs : list key := [KOrder; KMorphology; KAge].

(** [filteredData] as a function of its three dependencies. *)
Definition filteredDataWith (d : option dataset) (fs : filterState)
  (period : option string) : result dataset :=
  filteredDataOf attrOf filterAttrs (lookup fs) d period.

(** [filteredData] *)
Definition filteredData (st : state) : result dataset :=
  filteredDataWith (data st) (filters st) (selectedPeriod st).

(** The effect on [[filteredData, selectedBuildingDocId]], without the
    hand-over of [filteredData] to the map source. *)
Definition clearIfFilteredOut (fd : dataset) (st : state) : state :=
  match selectedBuildingDocId st with
  | Some sel =>
      if truthy (selectedBuildingDocId st) then
        let exists_ :=
          existsb (fun f => existsb (fun b => String.eqb (doc_id b) sel) (buildings f))
                  (features fd) in
        if negb exists_ then setSelectedBuildingDocId None st else st
      else st
  | None => st
  end.

(** One recomputation of the derived dataset followed by its effect. *)
Definition recompute (st : state) : result state :=
  match filteredData st with
  | Ok fd => Ok (clearIfFilteredOut fd st)
  | Throw e => Throw e
  end.

(** The updater [toggleFilter] passes to [setFilters]. *)
Definition toggleFilterIn (k : key) (v : string) (prev : filterState) : filterState :=
  let set := JsSet.of_list (JsSet.to_list (lookup prev k)) in
  let set := if JsSet.has set v then JsSet.delete v set else JsSet.add v set in
  assign prev k set.

Definition toggleFilter (k : key) (v : string) (st : state) : state :=
  setFilters (toggleFilterIn k v (filters st)) st.

Definition clearFilters (st : state) : state :=
  setSelectedPeriod None (setFilters noFilters st).

Definition exitSite (st : state) : state :=
  setSelectedBuildingDocId None (setSelectedSite None st).

(** The map's click handler on the sites layer. *)
Definition clickSite (name : string) (st : state) : state :=
  setSelectedBuildingDocId None (setSelectedSite (Some name) st).

(** The click handler of a timeline segment. *)
Definition clickSegment (seg : segment) (st : state) : state :=
  let active :=
    match selectedPeriod st with
    | Some p => String.eqb p (seg_id seg)
    | None => false
    end in
  setSelectedPeriod (if active then None else Some (seg_id seg)) st.

(** [siteFeat] *)
Definition siteFeat (fd : dataset) (st : state) : option feature :=
  find (siteIs (selectedSite st)) (features fd).

(** [buildingObj] *)
Definition buildingObj (fd : dataset) (st : state) : option building :=
  match siteFeat fd st with
  | Some f =>
      match selectedBuildingDocId st with
      | Some sel => find (fun b => String.eqb (doc_id b) sel) (buildings f)
      | None => None
      end
  | None => None
  end.

(** [originalBuildings], for a loaded dataset [d] *)
Definition originalBuildings (d : dataset) (st : state) : list building :=
  if truthy (selectedSite st) then
    match find (siteIs (selectedSite st)) (features d) with
    | Some f => buildings f
    | None => []
    end
  else [].

(** [visibleDocIds] *)
Definition visibleDocIds (fd : dataset) (st : state) : JsSet.t :=
  JsSet.of_list
    match find (siteIs (selectedSite st)) (features fd) with
    | Some f => map doc_id (buildings f)
    | None => []
    end.

(** The click handler of the list entry of a building whose [doc_id] is
    [docId]: [isVisible && setSelectedBuildingDocId(b.doc_id)]. *)
Definition selectBuilding (fd : dataset) (docId : string) (st : state) : state :=
  let isVisible := JsSet.has (visibleDocIds fd st) docId in
  if isVisible then setSelectedBuildingDocId (Some docId) st else st.

(** The setters of the remaining cells. *)
Definition setData (v : option dataset) (st : state) : state :=
  {| data := v; selectedSite := selectedSite st;
     selectedBuildingDocId := selectedBuildingDocId st;
     selectedPeriod := selectedPeriod st; hoveredSegment := hoveredSegment st;
     filters := filters st; dropdownOpen := dropdownOpen st |}.

Definition setHoveredSegment (v : option string) (st : state) : state :=
  {| data := data st; selectedSite := selectedSite st;
     selectedBuildingDocId := selectedBuildingDocId st;
     selectedPeriod := selectedPeriod st; hoveredSegment := v;
     filters := filters st; dropdownOpen := dropdownOpen st |}.

Definition setDropdownOpen (v : dropdowns) (st : state) : state :=
  {| data := data st; selectedSite := selectedSite st;
     selectedBuildingDocId := selectedBuildingDocId st;
     selectedPeriod := selectedPeriod st; hoveredSegment := hoveredSegment st;
     filters := filters st; dropdownOpen := v |}.

(** The initial values of the [useState] cells. *)
Definition initialState : state :=
  {| data := None; selectedSite := None; selectedBuildingDocId := None;
     selectedPeriod := None; hoveredSegment := None; filters := noFilters;
     dropdownOpen := {| orderOpen := false; morphologyOpen := false;
                        ageOpen := false |} |}.

(** The updater of [toggleDropdown]: [{ ...prev, [attr]: !prev[attr] }] *)
Definition toggleDropdownIn (k : key) (prev : dropdowns) : dropdowns :=
  match k with
  | KOrder =>
      {| orderOpen := negb (orderOpen prev); morphologyOpen := morphologyOpen prev;
         ageOpen := ageOpen prev |}
  | KMorphology =>
      {| orderOpen := orderOpen prev; morphologyOpen := negb (morphologyOpen prev);
         ageOpen := ageOpen prev |}
  | KAge =>
      {| orderOpen := orderOpen prev; morphologyOpen := morphologyOpen prev;
         ageOpen := negb (ageOpen prev) |}
  end.

Definition toggleDropdown (k : key) (st : state) : state :=
  setDropdownOpen (toggleDropdownIn k (dropdownOpen st)) st.

(** The click handler of the Back button of the building details. *)
Definition back (st : state) : state :=
  setSelectedBuildingDocId None st.

(** [displayedSeg]: the segment of [hoveredSegment || selectedPeriod]. *)
Definition displayedSeg (st : state) : option segment :=
  let id_ := if truthy (hoveredSegment st) then hoveredSegment st
             else selectedPeriod st in
  match id_ with
  | Some i => if truthy id_ then findSegment i else None
  | None => None
  end.

(** The list entries of the side panel, rendered when
    [siteFeat && !buildingObj]: one for every building of
    [originalBuildings], with its [isVisible] flag. *)
Definition listEntries (d fd : dataset) (st : state) : list (building * bool) :=
  match siteFeat fd st, buildingObj fd st with
  | Some _, None =>
      map (fun b => (b, JsSet.has (visibleDocIds fd st) (doc_id b)))
          (originalBuildings d st)
  | _, _ => []
  end.

End SiteMap.

(** ** [SiteMap_v4.js] *)

Module SiteMapV4.

(** [{ order: Set, morphology: Set, age: Set, date: Set }]: the keys of
    [filters] are the four attribute names. *)
Record filterState : Type := {
  orderSet : JsSet.t;
  morphologySet : JsSet.t;
  ageSet : JsSet.t;
  dateSet : JsSet.t
}.

(** [filters[attr]] *)
Definition lookup (fs : filterState) (k : attr) : JsSet.t :=
  match k with
  | Order => orderSet fs
  | Morphology => morphologySet fs
  | Age => ageSet fs
  | Date => dateSet fs
  end.

(** [{ ...prev, [attr]: set }] *)
Definition assign (fs : filterState) (k : attr) (set : JsSet.t) : filterState :=
  match k with
  | Order =>
      {| orderSet := set; morphologySet := morphologySet fs;
         ageSet := ageSet fs; dateSet := dateSet fs |}
  | Morphology =>
      {| orderSet := orderSet fs; morphologySet := set;
         ageSet := ageSet fs; dateSet := dateSet fs |}
  | Age =>
      {| orderSet := orderSet fs; morphologySet := morphologySet fs;
         ageSet := set; dateSet := dateSet fs |}
  | Date =>
      {| orderSet := orderSet fs; morphologySet := morphologySet fs;
         ageSet := ageSet fs; dateSet := set |}
  end.

Definition noFilters : filterState :=
  {| orderSet := JsSet.empty; morphologySet := JsSet.empty;
     ageSet := JsSet.empty; dateSet := JsSet.empty |}.

Record state : Type := {
  data : option dataset;
  selectedSite : option string;
  selectedBuilding : option string;
  selectedPeriod : option string;
  hoveredSegment : option string;
  filters : filterState;
  dropdownOpen : dropdowns
}.

Definition setSelectedSite (v : option string) (st : state) : state :=
  {| data := data st; selectedSite := v;
     selectedBuilding := selectedBuilding st;
     selectedPeriod := selectedPeriod st; hoveredSegment := hoveredSegment st;
     filters := filters st; dropdownOpen := dropdownOpen st |}.

Definition setSelectedBuilding (v : option string) (st : state) : state :=
  {| data := data st; selectedSite := selectedSite st;
     selectedBuilding := v;
     selectedPeriod := selectedPeriod st; hoveredSegment := hoveredSegment st;
     filters := filters st; dropdownOpen := dropdownOpen st |}.

Definition setSelectedPeriod (v : option string) (st : state) : state :=
  {| data := data st; selectedSite := selectedSite st;
     selectedBuilding := selectedBuilding st;
     selectedPeriod := v; hoveredSegment := hoveredSegment st;
     filters := filters st; dropdownOpen := dropdownOpen st |}.

Definition setFilters (v : filterState) (st : state) : state :=
  {| data := data st; selectedSite := selectedSite st;
     selectedBuilding := selectedBuilding st;
     selectedPeriod := selectedPeriod st; hoveredSegment := hoveredSegment st;
     filters := v; dropdownOpen := dropdownOpen st |}.

(** [allOptions]: no allow-list is applied to the morphology values. *)
Definition allOptions (d : option dataset) : options :=
  match d with
  | None => {| orderOptions := []; morphologyOptions := []; ageOptions := [] |}
  | Some d =>
      let '(o, m, a) := collectOptions d in
      {| orderOptions := sort (JsSet.to_list o);
         morphologyOptions := sort (JsSet.to_list m);
         ageOptions := sort (JsSet.to_list a) |}
  end.

(** The loop's [['order','morphology','age','date']]. *)
Definition filterAttrs : list attr := [Order; Morphology; Age; Date].

Definition filteredDataWith (d : option dataset) (fs : filterState)
  (period : option string) : result dataset :=
  filteredDataOf (fun a => a) filterAttrs (lookup fs) d period.

(** [filteredData] *)
Definition filteredData (st : state) : result dataset :=
  filteredDataWith (data st) (filters st) (selectedPeriod st).

(** The effect on [[filteredData, selectedBuilding]], without the hand-over
    of [filteredData] to the map source; buildings are compared by [id]. *)
Definition clearIfFilteredOut (fd : dataset) (st : state) : state :=
  match selectedBuilding st with
  | Some sel =>
      if truthy (selectedBuilding st)
         && negb (existsb (fun f => existsb (fun b => String.eqb (id b) sel)
                                            (buildings f))
                          (features fd))
      then setSelectedBuilding None st
      else st
  | None => st
  end.

Definition recompute (st : state) : result state :=
  match filteredData st with
  | Ok fd => Ok (clearIfFilteredOut fd st)
  | Throw e => Throw e
  end.

Definition toggleFilterIn (k : attr) (v : string) (prev : filterState) : filterState :=
  let next := assign prev k (JsSet.of_list (JsSet.to_list (lookup prev k))) in
  if JsSet.has (lookup next k) v
  then assign next k (JsSet.delete v (lookup next k))
  else assign next k (JsSet.add v (lookup next k)).

Definition toggleFilter (k : attr) (v : string) (st : state) : state :=
  setFilters (toggleFilterIn k v (filters st)) st.

Definition clearFilters (st : state) : state :=
  setSelectedPeriod None (setFilters noFilters st).

Definition exitSite (st : state) : state :=
  setSelectedBuilding None (setSelectedSite None st).

Definition clickSite (name : string) (st : state) : state :=
  setSelectedBuilding None (setSelectedSite (Some name) st).

(** [siteFeat] *)
Definition siteFeat (fd : dataset) (st : state) : option feature :=
  find (siteIs (selectedSite st)) (features fd).

(** [buildingObj] *)
Definition buildingObj (fd : dataset) (st : state) : option building :=
  match siteFeat fd st with
  | Some f =>
      match selectedBuilding st with
      | Some sel => find (fun b => String.eqb (id b) sel) (buildings f)
      | None => None
      end
  | None => None
  end.

(** The buildings that get a list entry: [siteFeat.properties.buildings],
    rendered when [siteFeat && !buildingObj]. *)
Definition listedBuildings (fd : dataset) (st : state) : list building :=
  match siteFeat fd st, buildingObj fd st with
  | Some f, None => buildings f
  | _, _ => []
  end.

(** The click handler of the list entry of a building whose [id] is [bid]:
    [setSelectedBuilding(b.id)]. *)
Definition selectBuilding (bid : string) (st : state) : state :=
  setSelectedBuilding (Some bid) st.

End SiteMapV4.

(** ** Loading: the sanitizer of both components

    The fetched payload is a tree of objects and the sanitizer assigns to
    members of its building objects, so the building objects live in a
    store and the payload refers to them by location.  The arrays
    [raw.features] and [f.properties.buildings] are read only. *)

Module Loader.

(** A member of a building as parsed from JSON: an array of strings and
    [null]s, or a value that is no array (a string, or [None] for [null]
    and for a missing member). *)
Inductive member : Type :=
| Arr (vs : list (option string))
| Scalar (v : option string).

Record rawBuilding : Type := {
  raw_doc_id : string;
  raw_id : string;
  raw_order : member;
  raw_morphology : member;
  raw_age : member;
  raw_date : member;
  raw_url : member
}.

(** [b[attr]] *)
Definition rawGet (b : rawBuilding) (a : attr) : member :=
  match a with
  | Order => raw_order b
  | Morphology => raw_morphology b
  | Age => raw_age b
  | Date => raw_date b
  end.

(** [b[attr] = v] *)
Definition rawSet (b : rawBuilding) (a : attr) (v : member) : rawBuilding :=
  match a with
  | Order =>
      {| raw_doc_id := raw_doc_id b; raw_id := raw_id b; raw_order := v;
         raw_morphology := raw_morphology b; raw_age := raw_age b;
         raw_date := raw_date b; raw_url := raw_url b |}
  | Morphology =>
      {| raw_doc_id := raw_doc_id b; raw_id := raw_id b; raw_order := raw_order b;
         raw_morphology := v; raw_age := raw_age b;
         raw_date := raw_date b; raw_url := raw_url b |}
  | Age =>
      {| raw_doc_id := raw_doc_id b; raw_id := raw_id b; raw_order := raw_order b;
         raw_morphology := raw_morphology b; raw_age := v;
         raw_date := raw_date b; raw_url := raw_url b |}
  | Date =>
      {| raw_doc_id := raw_doc_id b; raw_id := raw_id b; raw_order := raw_order b;
         raw_morphology := raw_morphology b; raw_age := raw_age b;
         raw_date := v; raw_url := raw_url b |}
  end.

Definition loc : Type := nat.

(** The store of building objects. *)
Definition heap : Type := list rawBuilding.

Fixpoint update (h : heap) (l : loc) (b : rawBuilding) : heap :=
  match h, l with
  | [], _ => []
  | _ :: h', O => b :: h'
  | x :: h', S l' => x :: update h' l' b
  end.

Record rawFeature : Type := {
  raw_site : string;
  raw_geometry : string;
  raw_buildings : list loc
}.

(** The object [raw]: its [features] array. *)
Definition payload : Type := list rawFeature.

Definition lowerAscii (c : ascii) : ascii :=
  let n := nat_of_ascii c in
  if Nat.leb 65 n && Nat.leb n 90 then ascii_of_nat (n + 32) else c.

(** [v.toLowerCase()]; only the letters A to Z lower-case to a letter of
    the word the result is compared with. *)
Fixpoint toLowerCase (s : string) : string :=
  match s with
  | EmptyString => EmptyString
  | String c s' => String (lowerAscii c) (toLowerCase s')
  end.

(** [v && v.toLowerCase() !== 'undetermined' && v !== '<NA>'] *)
Definition keepValue (v : option string) : bool :=
  match v with
  | Some s =>
      truthy v
      && negb (String.eqb (toLowerCase s) "undetermined")
      && negb (String.eqb s "<NA>")
  | None => false
  end.

(** One iteration of the innermost [forEach], on the building at [l]. *)
Definition sanitizeAttr (l : loc) (h : heap) (a : attr) : heap :=
  match nth_error h l with
  | Some b =>
      match rawGet b a with
      | Arr vs => update h l (rawSet b a (Arr (filter keepValue vs)))
      | Scalar _ => h
      end
  | None => h
  end.

Definition sanitizeBuilding (h : heap) (l : loc) : heap :=
  fold_left (sanitizeAttr l) [Order; Morphology; Age; Date] h.

Definition sanitizeFeature (h : heap) (f : rawFeature) : heap :=
  fold_left sanitizeBuilding (raw_buildings f) h.

(** [raw.features.forEach(...)] *)
Definition sanitize (h : heap) (raw : payload) : heap :=
  fold_left sanitizeFeature raw h.

(** The [then] callback of the fetch: sanitize, then [setData(raw)].  The
    result is the store after the callback and the value of [data]. *)
Definition load (h : heap) (raw : payload) : heap * payload :=
  (sanitize h raw, raw).

(** What a reader of the payload [p] sees in the store [h]. *)
Definition observe (h : heap) (p : payload)
  : list (string * string * list (option rawBuilding)) :=
  map (fun f => (raw_site f, raw_geometry f,
                 map (fun l => nth_error h l) (raw_buildings f))) p.

(** The locations of the building objects of a payload. *)
Definition locsOf (p : payload) : list loc :=
  flat_map raw_buildings p.

End Loader.

(** ** Statements of the specification, and the datasets of its examples *)

(** A period that is no period at all, or the id of a segment of the table. *)
Definition knownPeriod (period : option string) : Prop :=
  period = None \/ exists seg, In seg timelineSegments /\ period = Some (seg_id seg).

(** The test of one attribute, in the words of the specification: a
    non-empty selected set must hold one of the building's tags. *)
Definition attrTest (selected : JsSet.t) (tagsOfBuilding : list string) : Prop :=
  selected <> [] -> exists v, In v tagsOfBuilding /\ In v selected.

(** The period test, in the words of the specification. *)
Definition periodTest (period : option string) (b : building) : Prop :=
  forall seg, In seg timelineSegments -> period = Some (seg_id seg) ->
    exists tag, In tag (age b) /\ In tag (tags seg).

(** The retention rule of the specification for the doc_id-keyed
    component: every attribute test and the period test. *)
Definition retained (fs : SiteMap.filterState) (period : option string)
  (b : building) : Prop :=
  (forall k : SiteMap.key,
      attrTest (SiteMap.lookup fs k) (get b (SiteMap.attrOf k)))
  /\ periodTest period b.

(** The building test of the doc_id-keyed component for a computed tag set. *)
Definition keeps (fs : SiteMap.filterState) (pt : option JsSet.t) : building -> bool :=
  keepBuilding SiteMap.attrOf SiteMap.filterAttrs (SiteMap.lookup fs) pt.

(** The cleaned form of a member, in the words of the specification: a
    sequence keeps its entries that pass the sanitizer's test, a value
    that is no sequence passes through. *)
Definition cleanMember (m : Loader.member) : Loader.member :=
  match m with
  | Loader.Arr vs => Loader.Arr (filter Loader.keepValue vs)
  | Loader.Scalar v => Loader.Scalar v
  end.

(** The cleaned form of a building: its four attributes cleaned. *)
Definition cleanBuilding (b : Loader.rawBuilding) : Loader.rawBuilding :=
  {| Loader.raw_doc_id := Loader.raw_doc_id b; Loader.raw_id := Loader.raw_id b;
     Loader.raw_order := cleanMember (Loader.raw_order b);
     Loader.raw_morphology := cleanMember (Loader.raw_morphology b);
     Loader.raw_age := cleanMember (Loader.raw_age b);
     Loader.raw_date := cleanMember (Loader.raw_date b);
     Loader.raw_url := Loader.raw_url b |}.

(** The site [f'] is the site [f] with the buildings [bs] in place of
    its own: same name, same geometry, and [bs] as its building list. *)
Definition siteWith (f' f : feature) (bs : list building) : Prop :=
  site f' = site f /\ geometry f' = geometry f /\ buildings f' = bs.

(** [kept] is the received sequence [vs] without its entries that are
    not valid: every valid entry stays, as often as it occurs and in its
    place, and no other entry does. *)
Inductive keptOf (valid : option string -> Prop)
  : list (option string) -> list (option string) -> Prop :=
| keptOf_nil : keptOf valid [] []
| keptOf_keep v vs kept :
    valid v -> keptOf valid vs kept -> keptOf valid (v :: vs) (v :: kept)
| keptOf_drop v vs kept :
    ~ valid v -> keptOf valid vs kept -> keptOf valid (v :: vs) kept.

(** [l1] is [l2] with some entries left out. *)
Inductive subseq (A : Type) : list A -> list A -> Prop :=
| subseq_nil : subseq [] []
| subseq_drop x l1 l2 : subseq l1 l2 -> subseq l1 (x :: l2)
| subseq_keep x l1 l2 : subseq l1 l2 -> subseq (x :: l1) (x :: l2).

(** A derived dataset within another: some sites left out, and in every
    site that stays some buildings left out, order kept. *)
Inductive subFeatures : list feature -> list feature -> Prop :=
| subFeatures_nil : subFeatures [] []
| subFeatures_drop f l1 l2 : subFeatures l1 l2 -> subFeatures l1 (f :: l2)
| subFeatures_keep f1 f2 l1 l2 :
    site f1 = site f2 -> geometry f1 = geometry f2 ->
    subseq (buildings f1) (buildings f2) ->
    subFeatures l1 l2 -> subFeatures (f1 :: l1) (f2 :: l2).

Definition subDataset (d1 d2 : dataset) : Prop :=
  subFeatures (features d1) (features d2).

(** [f.properties.buildings.length] is not zero *)
Definition hasBuildings (f : feature) : bool :=
  negb (Nat.eqb (length (buildings f)) 0).

Definition mkBuilding (docId name : string) (o m a : list string) : building :=
  {| doc_id := docId; id := name; order := o; morphology := m; age := a;
     date := []; url := ""; style_evidence := []; date_evidence := [] |}.

Definition B1 : building := mkBuilding "B1" "Temple of Apollo" ["Doric"] ["peripteral"] ["Classical"].
Definition B2 : building := mkBuilding "B2" "Treasury" ["Ionic"] ["hypostyle"] ["Archaic"].

Definition delphi : dataset :=
  {| features := [ {| site := "Delphi"; geometry := "Point"; buildings := [B1; B2] |} ] |}.

(** A dataset with a site that has no building. *)
Definition bareSite : dataset :=
  {| features := [ {| site := "Bassae"; geometry := "Point"; buildings := [] |} ] |}.

Definition onlyDoric : SiteMap.filterState :=
  {| SiteMap.orderSet := ["Doric"]; SiteMap.morphologySet := [];
     SiteMap.ageSet := [] |}.

Definition initialDropdowns : dropdowns :=
  {| orderOpen := false; morphologyOpen := false; ageOpen := false |}.

(** Delphi loaded, the site open, building B2 selected, and the order
    filter set to Doric, which B2 does not pass. *)
Definition staleState : SiteMap.state :=
  {| SiteMap.data := Some delphi; SiteMap.selectedSite := Some "Delphi";
     SiteMap.selectedBuildingDocId := Some "B2"; SiteMap.selectedPeriod := None;
     SiteMap.hoveredSegment := None; SiteMap.filters := onlyDoric;
     SiteMap.dropdownOpen := initialDropdowns |}.

Definition staleStateV4 : SiteMapV4.state :=
  {| SiteMapV4.data := Some delphi; SiteMapV4.selectedSite := Some "Delphi";
     SiteMapV4.selectedBuilding := Some "Treasury"; SiteMapV4.selectedPeriod := None;
     SiteMapV4.hoveredSegment := None;
     SiteMapV4.filters :=
       {| SiteMapV4.orderSet := ["Doric"]; SiteMapV4.morphologySet := [];
          SiteMapV4.ageSet := []; SiteMapV4.dateSet := [] |};
     SiteMapV4.dropdownOpen := initialDropdowns |}.

(** A store with one building whose order array holds a placeholder, and
    the payload that refers to it. *)
Definition rawTemple : Loader.rawBuilding :=
  {| Loader.raw_doc_id := "B1"; Loader.raw_id := "Temple of Apollo";
     Loader.raw_order := Loader.Arr [Some "Doric"; Some "<NA>"; None];
     Loader.raw_morphology := Loader.Arr [Some "Undetermined"];
     Loader.raw_age := Loader.Arr [Some "Classical"; Some ""];
     Loader.raw_date := Loader.Scalar (Some "undetermined");
     Loader.raw_url := Loader.Scalar (Some "https://example.org/B1") |}.

Definition rawHeap : Loader.heap := [rawTemple].

Definition rawDelphi : Loader.payload :=
  [ {| Loader.raw_site := "Delphi"; Loader.raw_geometry := "Point";
       Loader.raw_buildings := [0] |} ].

(** ** The states the component can reach

    One constructor for the initial state, one for the completion of the
    fetch, one for each handler, and one for the effect that follows a
    recomputation of the derived dataset.  A segment that is clicked or
    hovered is a segment of the table, since the timeline renders one
    element per entry of [timelineSegments]; a list entry is clicked in a
    render, whose derived dataset is [fd].  A handler is allowed in every
    state, also where the component does not render its control, so the
    relation holds at least the states the component reaches. *)
Inductive reachable : SiteMap.state -> Prop :=
| reach_initial : reachable SiteMap.initialState
| reach_load d st :
    reachable st -> SiteMap.data st = None ->
    reachable (SiteMap.setData (Some d) st)
| reach_clickSite name st :
    reachable st -> reachable (SiteMap.clickSite name st)
| reach_exitSite st :
    reachable st -> reachable (SiteMap.exitSite st)
| reach_toggleFilter k v st :
    reachable st -> reachable (SiteMap.toggleFilter k v st)
| reach_clearFilters st :
    reachable st -> reachable (SiteMap.clearFilters st)
| reach_toggleDropdown k st :
    reachable st -> reachable (SiteMap.toggleDropdown k st)
| reach_clickSegment seg st :
    reachable st -> In seg timelineSegments ->
    reachable (SiteMap.clickSegment seg st)
| reach_hover seg st :
    reachable st -> In seg timelineSegments ->
    reachable (SiteMap.setHoveredSegment (Some (seg_id seg)) st)
| reach_unhover st :
    reachable st -> reachable (SiteMap.setHoveredSegment None st)
| reach_selectBuilding fd docId st :
    reachable st -> SiteMap.filteredData st = Ok fd ->
    reachable (SiteMap.selectBuilding fd docId st)
| reach_back st :
    reachable st -> reachable (SiteMap.back st)
| reach_effect st st' :
    reachable st -> SiteMap.recompute st = Ok st' -> reachable st'.

(** ** The description block of the building details

    An evidence member of a building is an array of strings or, for a
    building without it, [None].  A text that is shown is given by its
    UTF-16 code units, since [slice] cuts by code unit. *)

(** The characters of the class [\s] of a regular expression: the white
    space and the line terminators of the language. *)
Definition isWhiteSpace (u : N) : bool :=
  ((u =? 9) || (u =? 10) || (u =? 11) || (u =? 12) || (u =? 13) || (u =? 32)
   || (u =? 160) || (u =? 5760) || ((8192 <=? u) && (u <=? 8202))
   || (u =? 8232) || (u =? 8233) || (u =? 8239) || (u =? 8287)
   || (u =? 12288) || (u =? 65279))%N.

(** [t.split(/\s+/)] on the code units [us]: the pieces between the
    maximal runs of white space.  [inRun] tells that the unit before was
    white space, [piece] holds the units of the piece at hand, last first. *)
Fixpoint splitWhite (us : list N) (inRun : bool) (piece : list N) : list (list N) :=
  match us with
  | [] => [rev piece]
  | u :: us' =>
      if isWhiteSpace u then
        if inRun then splitWhite us' true []
        else rev piece :: splitWhite us' true []
      else splitWhite us' false (u :: piece)
  end.

(** [t.split(/\s+/).length > 5] *)
Definition isLongText (t : string) : bool :=
  Nat.ltb 5 (length (splitWhite (units t) false [])).

(** [text.slice(0, 180)] *)
Definition slice180 (text : string) : list N := firstn 180 (units text).

(** [ev?.some(t => t.split(/\s+/).length > 5)]: [undefined], which is
    falsy, for a missing member. *)
Definition someLong (ev : option (list string)) : bool :=
  match ev with
  | Some ts => existsb isLongText ts
  | None => false
  end.

(** [ev.filter(...).slice(0, 2).map(text => text.slice(0, 180))]: reading
    [.filter] of a missing member throws. *)
Definition firstTwoLong (ev : option (list string)) : result (list (list N)) :=
  match ev with
  | Some ts => Ok (map slice180 (firstn 2 (filter isLongText ts)))
  | None => Throw TypeError
  end.

(** The block: nothing when neither member has a long text, and else the
    lines of the style evidence and the lines of the date evidence. *)
Definition descriptionBlock (style_ev date_ev : option (list string))
  : result (option (list (list N) * list (list N))) :=
  if someLong style_ev || someLong date_ev then
    match firstTwoLong style_ev with
    | Throw e => Throw e
    | Ok ss =>
        match firstTwoLong date_ev with
        | Throw e => Throw e
        | Ok ds => Ok (Some (ss, ds))
        end
    end
  else Ok None.

(** A word: some characters, none of them white space. *)
Definition isWord (w : list N) : Prop :=
  w <> [] /\ forall u, In u w -> isWhiteSpace u = false.

(** Words put one after the other with one or more white-space characters
    between two of them; [gaps] holds the white space before each word
    after the first. *)
Fixpoint spaced (w : list N) (rest : list (list N * list N)) : list N :=
  match rest with
  | [] => w
  | (gap, w') :: rest' => w ++ gap ++ spaced w' rest'
  end.

(** An evidence member that is present and holds a text of more than
    five pieces. *)
Definition hasLongText (ev : option (list string)) : Prop :=
  exists ts t, ev = Some ts /\ In t ts
               /\ 5 < length (splitWhite (units t) false []).

(** The lines shown for the texts [ts]: at most two, each the first 180
    code units of a long text of [ts]. *)
Definition linesOf (ts : list string) (lines : list (list N)) : Prop :=
  lines = map slice180 (firstn 2 (filter isLongText ts))
  /\ length lines <= 2
  /\ forall line, In line lines ->
        length line <= 180
        /\ exists t, In t ts /\ 5 < length (splitWhite (units t) false [])
                     /\ line = firstn 180 (units t).

(** ** Statements about [SiteMap_v4.js] *)

(** The retention rule of [SiteMap_v4.js]: the four attribute tests and
    the period test. *)
Definition retainedV4 (fs : SiteMapV4.filterState) (period : option string)
  (b : building) : Prop :=
  (forall a : attr, attrTest (SiteMapV4.lookup fs a) (get b a))
  /\ periodTest period b.

Definition keepsV4 (fs : SiteMapV4.filterState) (pt : option JsSet.t)
  : building -> bool :=
  keepBuilding (fun a => a) SiteMapV4.filterAttrs (SiteMapV4.lookup fs) pt.

(** The three sets of [SiteMap_v4.js] that the other component has too. *)
Definition withoutDate (fs : SiteMapV4.filterState) : SiteMap.filterState :=
  {| SiteMap.orderSet := SiteMapV4.orderSet fs;
     SiteMap.morphologySet := SiteMapV4.morphologySet fs;
     SiteMap.ageSet := SiteMapV4.ageSet fs |}.

(** An entry the sanitizer is to keep, in words: a string that is not
    empty, is not the word undetermined in any case, and is not the
    missing-value marker. *)
Definition validEntry (v : option string) : Prop :=
  exists s, v = Some s /\ s <> "" /\ Loader.toLowerCase s <> "undetermined"
            /\ s <> "<NA>".

(** The order of [sort]: not greater, by UTF-16 code units. *)
Definition lebString (a b : string) : Prop := codeUnitLeb a b = true.

(** Not greater in the lexicographic order of sequences of code units:
    a prefix comes first, and else the first unit that differs decides. *)
Inductive unitsLe : list N -> list N -> Prop :=
| unitsLe_nil y : unitsLe [] y
| unitsLe_lt a b x y : (a < b)%N -> unitsLe (a :: x) (b :: y)
| unitsLe_eq a x y : unitsLe x y -> unitsLe (a :: x) (a :: y).

(** The order in which JavaScript compares two strings. *)
Definition codeUnitOrder (a b : string) : Prop := unitsLe (units a) (units b).

(** A third building at Delphi, dated, for the examples of [SiteMap_v4.js]. *)
Definition B3 : building :=
  {| doc_id := "B3"; id := "Stoa"; order := ["Doric"]; morphology := ["linear"];
     age := ["Hellenistic"]; date := ["3rd c. BCE"]; url := "";
     style_evidence := []; date_evidence := [] |}.

(** The second segment of the table, for the examples. *)
Definition classicalSegment : segment :=
  nth 1 timelineSegments
      {| seg_id := ""; label := ""; start := 0%Z; end_ := 0%Z; tags := [] |}.

(** ** Facts about sets and arrays *)

Lemma includes_In (arr : list string) (v : string) :
  includes arr v = true <-> In v arr.
Proof.
  unfold includes. rewrite existsb_exists. split.
  - intros [x [Hx He]]. apply String.eqb_eq in He. now subst.
  - intros H. exists v. split; [assumption | apply String.eqb_refl].
Qed.

Lemma has_In (s : JsSet.t) (v : string) : JsSet.has s v = true <-> In v s.
Proof. exact (includes_In s v). Qed.

Lemma In_add (x v : string) (s : JsSet.t) :
  In x (JsSet.add v s) <-> x = v \/ In x s.
Proof.
  unfold JsSet.add. destruct (JsSet.has s v) eqn:E.
  - apply has_In in E. split; [now right | intros [-> | H]; assumption].
  - rewrite in_app_iff. simpl. intuition.
Qed.

Lemma In_addAll (x : string) (vs : list string) (s : JsSet.t) :
  In x (addAll vs s) <-> In x vs \/ In x s.
Proof.
  unfold addAll. revert s. induction vs as [|v vs IH]; intros s; simpl.
  - intuition.
  - rewrite IH, In_add. intuition.
Qed.

Lemma In_of_list (x : string) (l : list string) :
  In x (JsSet.of_list l) <-> In x l.
Proof.
  change (JsSet.of_list l) with (addAll l JsSet.empty).
  rewrite In_addAll. simpl. intuition.
Qed.

Lemma In_delete (x v : string) (s : JsSet.t) :
  In x (JsSet.delete v s) <-> In x s /\ x <> v.
Proof.
  unfold JsSet.delete. rewrite filter_In, negb_true_iff, String.eqb_neq. reflexivity.
Qed.

Lemma size_zero (s : JsSet.t) : Nat.eqb (JsSet.size s) 0 = true <-> s = [].
Proof.
  unfold JsSet.size. destruct s; simpl; split; intros H; congruence.
Qed.

(** ** Facts about subsequences *)

Create HintDb sub discriminated.
#[local] Hint Constructors subseq subFeatures : sub.

Lemma subseq_refl (A : Type) (l : list A) : subseq l l.
Proof. induction l; auto with sub. Qed.

Lemma subseq_length (A : Type) (l1 l2 : list A) :
  subseq l1 l2 -> length l1 <= length l2.
Proof. induction 1; simpl; lia. Qed.

Lemma subseq_In (A : Type) (l1 l2 : list A) :
  subseq l1 l2 -> forall x, In x l1 -> In x l2.
Proof.
  induction 1; simpl; intros y Hy; auto.
  destruct Hy as [-> | Hy]; auto.
Qed.

Lemma subseq_filter (A : Type) (p q : A -> bool) (l : list A) :
  (forall x, In x l -> p x = true -> q x = true) ->
  subseq (filter p l) (filter q l).
Proof.
  induction l as [|x l IH]; intros Hpq; simpl.
  - constructor.
  - assert (IH' : subseq (filter p l) (filter q l)).
    { apply IH. intros y Hy. apply Hpq. now right. }
    destruct (p x) eqn:Ep.
    + rewrite (Hpq x (or_introl eq_refl) Ep). now constructor.
    + destruct (q x); auto with sub.
Qed.

Lemma subFeatures_In (l1 l2 : list feature) :
  subFeatures l1 l2 ->
  forall f1 b, In f1 l1 -> In b (buildings f1) ->
    exists f2, In f2 l2 /\ site f2 = site f1 /\ In b (buildings f2).
Proof.
  induction 1 as [|f l1 l2 _ IH|f1 f2 l1 l2 Hs Hg Hb _ IH]; intros g b Hg' Hb'.
  - contradiction.
  - destruct (IH g b Hg' Hb') as [f2 [H1 H2]]. exists f2. split; [now right | assumption].
  - destruct Hg' as [<- | Hg'].
    + exists f2. split; [now left|]. split; [now symmetry|].
      now apply (subseq_In Hb).
    + destruct (IH g b Hg' Hb') as [f3 [H1 H2]]. exists f3. split; [now right | assumption].
Qed.

Lemma subFeatures_length (l1 l2 : list feature) :
  subFeatures l1 l2 -> length l1 <= length l2.
Proof. induction 1; simpl; lia. Qed.

(** ** Facts about the filter engine *)

Lemma filter_all (A : Type) (p : A -> bool) (l : list A) :
  (forall x, In x l -> p x = true) -> filter p l = l.
Proof.
  induction l as [|x l IH]; intros H; simpl; [reflexivity|].
  rewrite (H x (or_introl eq_refl)). f_equal. apply IH. intros y Hy. apply H. now right.
Qed.

Lemma filter_nonempty (A : Type) (p : A -> bool) (l : list A) :
  negb (Nat.eqb (length (filter p l)) 0) = existsb p l.
Proof.
  induction l as [|x l IH]; simpl; [reflexivity|].
  destruct (p x); simpl; [reflexivity | assumption].
Qed.

Lemma withBuildings_same (f : feature) : withBuildings f (buildings f) = f.
Proof. now destruct f. Qed.

Lemma In_mapFilterBoolean (A B : Type) (cb : A -> option B) (arr : list A) (y : B) :
  In y (mapFilterBoolean cb arr) <-> exists x, In x arr /\ cb x = Some y.
Proof.
  induction arr as [|x arr IH]; simpl.
  - split; [contradiction | intros [x [[] _]]].
  - destruct (cb x) eqn:E; simpl; rewrite IH; split.
    + intros [<- | [z [Hz Hc]]]; [exists x; auto | exists z; auto].
    + intros [z [[<- | Hz] Hc]]; [left; congruence | right; exists z; auto].
    + intros [z [Hz Hc]]. exists z; auto.
    + intros [z [[<- | Hz] Hc]]; [congruence | exists z; auto].
Qed.

(** [map] then [filter(Boolean)] is a filter on the sites followed by the
    rebuilding of the sites that stay. *)
Lemma mapFilterBoolean_filter_map (A B : Type) (cb : A -> option B)
  (keep : A -> bool) (rebuild : A -> B) (arr : list A) :
  (forall x, cb x = if keep x then Some (rebuild x) else None) ->
  mapFilterBoolean cb arr = map rebuild (filter keep arr).
Proof.
  intros H. induction arr as [|x arr IH]; simpl; [reflexivity|].
  rewrite H. destruct (keep x); simpl; now rewrite IH.
Qed.

Lemma findSegment_known (seg : segment) :
  In seg timelineSegments -> findSegment (seg_id seg) = Some seg.
Proof.
  intros H. repeat (destruct H as [<- | H]; [reflexivity|]). contradiction.
Qed.

Lemma findSegment_unknown (periodId : string) :
  ~ In periodId (map seg_id timelineSegments) -> findSegment periodId = None.
Proof.
  intros H. unfold findSegment.
  destruct (find _ timelineSegments) as [s|] eqn:E; [|reflexivity].
  apply find_some in E. destruct E as [Hin He]. apply String.eqb_eq in He.
  exfalso. apply H. rewrite <- He. now apply in_map.
Qed.

Lemma seg_id_nonempty (seg : segment) :
  In seg timelineSegments -> truthy (Some (seg_id seg)) = true.
Proof.
  intros H. repeat (destruct H as [<- | H]; [reflexivity|]). contradiction.
Qed.

(** For a known period the tag set is computed, and it holds the tags of
    the one segment with that id. *)
Lemma periodTagsOf_known (period : option string) :
  knownPeriod period ->
  exists pt, periodTagsOf period = Ok pt /\
    forall b,
      match pt with
      | Some s => exists tag, In tag (age b) /\ JsSet.has s tag = true
      | None => True
      end <-> periodTest period b.
Proof.
  intros [-> | [seg [Hin ->]]].
  - exists None. split; [reflexivity|]. intros b. split; [|trivial].
    intros _ seg _ H. discriminate.
  - exists (Some (JsSet.of_list (tags seg))). split.
    + unfold periodTagsOf, tagsOf.
      rewrite (seg_id_nonempty Hin), (findSegment_known Hin). reflexivity.
    + intros b. unfold periodTest. split.
      * intros [tag [Ha Hh]] seg' Hin' He.
        assert (seg' = seg) as ->.
        { injection He as He. pose proof (findSegment_known Hin') as F.
          rewrite <- He, (findSegment_known Hin) in F. congruence. }
        exists tag. split; [assumption|]. now apply In_of_list, has_In.
      * intros H. destruct (H seg Hin eq_refl) as [tag [Ha Ht]].
        exists tag. split; [assumption|]. now apply has_In, In_of_list.
Qed.

Section EngineFacts.

Variable K : Type.
Variable attrOf : K -> attr.
Variable attrs : list K.

Lemma attrFails_false (filters : K -> JsSet.t) (b : building) (k : K) :
  attrFails attrOf filters b k = false <-> attrTest (filters k) (get b (attrOf k)).
Proof.
  unfold attrFails, attrTest, JsSet.to_list. cbv zeta.
  rewrite andb_false_iff, !negb_false_iff, size_zero, existsb_exists. split.
  - intros [He | [v [Hv Hi]]] Hne; [contradiction|].
    exists v. split; [now apply includes_In | assumption].
  - intros H. destruct (filters k) as [|x s] eqn:E; [now left|].
    right. destruct H as [v [Hv Hs]]; [discriminate|].
    exists v. split; [assumption | now apply includes_In].
Qed.

Lemma attrLoop_true (filters : K -> JsSet.t) (b : building) (ks : list K) :
  attrLoop attrOf filters b ks = true <->
  forall k, In k ks -> attrTest (filters k) (get b (attrOf k)).
Proof.
  induction ks as [|k ks IH]; simpl.
  - split; [intros _ k [] | reflexivity].
  - destruct (attrFails attrOf filters b k) eqn:E.
    + split; [discriminate|]. intros H.
      assert (F : attrFails attrOf filters b k = false)
        by (apply attrFails_false, H; now left).
      congruence.
    + rewrite IH. apply attrFails_false in E. split.
      * intros H k' [<- | Hk]; auto.
      * intros H k' Hk. apply H. now right.
Qed.

Lemma keepBuilding_true (filters : K -> JsSet.t) (pt : option JsSet.t) (b : building) :
  keepBuilding attrOf attrs filters pt b = true <->
  (forall k, In k attrs -> attrTest (filters k) (get b (attrOf k))) /\
  match pt with
  | Some s => exists tag, In tag (age b) /\ JsSet.has s tag = true
  | None => True
  end.
Proof.
  unfold keepBuilding. rewrite <- attrLoop_true.
  destruct (attrLoop attrOf filters b attrs); [|split; [discriminate | intros [H _]; discriminate]].
  destruct pt as [s|]; [|tauto].
  destruct (existsb (fun tag => JsSet.has s tag) (age b)) eqn:E; simpl.
  - apply existsb_exists in E. tauto.
  - split; [discriminate|]. intros [_ H].
    assert (F : existsb (fun tag => JsSet.has s tag) (age b) = true)
      by (apply existsb_exists; exact H).
    congruence.
Qed.

(** The callback of [map] keeps a site exactly when one of its buildings
    is kept, and then with the kept buildings only. *)
Lemma mapFeature_spec (filters : K -> JsSet.t) (pt : option JsSet.t) (f : feature) :
  mapFeature attrOf attrs filters pt f =
  if existsb (keepBuilding attrOf attrs filters pt) (buildings f)
  then Some (withBuildings f (filter (keepBuilding attrOf attrs filters pt) (buildings f)))
  else None.
Proof.
  unfold mapFeature. cbv zeta. now rewrite filter_nonempty.
Qed.

(** A laxer building test gives a larger derived dataset. *)
Lemma mapFilterBoolean_mono (filters1 filters2 : K -> JsSet.t) (pt : option JsSet.t)
  (fs : list feature) :
  (forall b, keepBuilding attrOf attrs filters1 pt b = true ->
             keepBuilding attrOf attrs filters2 pt b = true) ->
  subFeatures (mapFilterBoolean (mapFeature attrOf attrs filters1 pt) fs)
              (mapFilterBoolean (mapFeature attrOf attrs filters2 pt) fs).
Proof.
  intros Hk. induction fs as [|f fs IH]; simpl; [constructor|].
  rewrite !mapFeature_spec.
  destruct (existsb (keepBuilding attrOf attrs filters1 pt) (buildings f)) eqn:E1.
  - assert (E2 : existsb (keepBuilding attrOf attrs filters2 pt) (buildings f) = true).
    { apply existsb_exists in E1. destruct E1 as [b [Hb Hkb]].
      apply existsb_exists. exists b. auto. }
    rewrite E2. apply subFeatures_keep; simpl; auto.
    apply subseq_filter. auto.
  - destruct (existsb (keepBuilding attrOf attrs filters2 pt) (buildings f));
      auto with sub.
Qed.

End EngineFacts.

(** ** The derived dataset of the doc_id-keyed component *)

Lemma all_keys (k : SiteMap.key) : In k SiteMap.filterAttrs.
Proof. destruct k; simpl; auto. Qed.

Lemma keeps_retained (fs : SiteMap.filterState) (period : option string)
  (pt : option JsSet.t) (b : building) :
  (match pt with
   | Some s => exists tag, In tag (age b) /\ JsSet.has s tag = true
   | None => True
   end <-> periodTest period b) ->
  keeps fs pt b = true <-> retained fs period b.
Proof.
  intros Hp. unfold keeps, retained. rewrite keepBuilding_true, Hp.
  split; intros [H1 H2]; split; auto. intros k. apply H1, all_keys.
Qed.

(** For a known period the memo returns, and its features are the sites
    with a kept building, each rebuilt with its kept buildings. *)
Lemma filteredDataWith_known (d : dataset) (fs : SiteMap.filterState)
  (period : option string) :
  knownPeriod period ->
  exists pt,
    periodTagsOf period = Ok pt /\
    SiteMap.filteredDataWith (Some d) fs period =
      Ok {| features :=
              map (fun f => withBuildings f (filter (keeps fs pt) (buildings f)))
                  (filter (fun f => existsb (keeps fs pt) (buildings f)) (features d)) |} /\
    forall b, keeps fs pt b = true <-> retained fs period b.
Proof.
  intros Hk. destruct (periodTagsOf_known Hk) as [pt [Hpt Hspec]].
  exists pt. split; [assumption|]. split.
  - unfold SiteMap.filteredDataWith, filteredDataOf. rewrite Hpt. do 2 f_equal.
    apply mapFilterBoolean_filter_map. intros f. apply mapFeature_spec.
  - intros b. apply keeps_retained, Hspec.
Qed.

(** C1. Building retention rule: for a loaded dataset and a period that is
    none or one of the table, the derived dataset is computed, and a
    building of a site of the canonical dataset is in the derived dataset
    (in the rebuilt copy of its site) exactly when, for every attribute
    with a non-empty selected set, it has a tag in that set, and, when a
    period is selected, one of its age tags is a tag of that period. *)
Theorem retention_rule (d : dataset) (fs : SiteMap.filterState)
  (period : option string) (H : knownPeriod period) :
  exists fd,
    SiteMap.filteredDataWith (Some d) fs period = Ok fd /\
    forall f b, In f (features d) -> In b (buildings f) ->
      (exists f', In f' (features fd) /\ f' = withBuildings f (buildings f')
                  /\ In b (buildings f'))
      <-> retained fs period b.
Proof.
  destruct (filteredDataWith_known d fs H) as [pt [_ [Hfd Hkeep]]].
  eexists. split; [exact Hfd|]. cbn [features].
  intros f b Hf Hb. rewrite <- Hkeep. split.
  - intros [f' [Hin [_ Hb']]].
    apply in_map_iff in Hin. destruct Hin as [g [<- _]].
    simpl in Hb'. now apply filter_In in Hb'.
  - intros Hk.
    exists (withBuildings f (filter (keeps fs pt) (buildings f))).
    split; [|split; [reflexivity | simpl; now apply filter_In]].
    apply in_map_iff. exists f. split; [reflexivity|].
    apply filter_In. split; [assumption|]. apply existsb_exists. now exists b.
Qed.

Lemma retention_rule_witness :
  knownPeriod (Some "archaic") /\
  exists fd,
    SiteMap.filteredDataWith (Some delphi) onlyDoric (Some "archaic") = Ok fd /\
    forall f b, In f (features delphi) -> In b (buildings f) ->
      (exists f', In f' (features fd) /\ f' = withBuildings f (buildings f')
                  /\ In b (buildings f'))
      <-> retained onlyDoric (Some "archaic") b.
Proof.
  assert (K : knownPeriod (Some "archaic")).
  { right. eexists. split; [left; reflexivity | reflexivity]. }
  split; [exact K | exact (retention_rule delphi onlyDoric K)].
Defined.

Lemma Forall2_map_left (A B : Type) (R : B -> A -> Prop) (g : A -> B) (l : list A) :
  (forall x, R (g x) x) -> Forall2 R (map g l) l.
Proof. intros H. induction l; simpl; constructor; auto. Qed.

Lemma Forall2_In_left (A B : Type) (R : B -> A -> Prop) (l' : list B) (l : list A) (y : B) :
  Forall2 R l' l -> In y l' -> exists x, In x l /\ R y x.
Proof.
  induction 1 as [|y' x l' l Hr _ IH]; simpl; [contradiction|].
  intros [<- | Hy]; [exists x; auto|].
  destruct (IH Hy) as [x' [Hx Hr']]. exists x'. auto.
Qed.

Lemma Forall2_In_right (A B : Type) (R : B -> A -> Prop) (l' : list B) (l : list A) (x : A) :
  Forall2 R l' l -> In x l -> exists y, In y l' /\ R y x.
Proof.
  induction 1 as [|y x' l' l Hr _ IH]; simpl; [contradiction|].
  intros [<- | Hx]; [exists y; auto|].
  destruct (IH Hx) as [y' [Hy Hr']]. exists y'. auto.
Qed.

(** C8. Site pruning: for a known period the sites of the derived
    dataset are, one for one and in the order of the canonical dataset,
    the sites with at least one building that passes; each has the name
    and geometry of its canonical site and, as its building list, exactly
    the buildings of that site that pass, in their order.  So a site is in
    the derived dataset iff one of its buildings passes, and no site of
    the derived dataset has an empty building list or a building that
    fails. *)
Theorem site_pruning (d : dataset) (fs : SiteMap.filterState)
  (period : option string) (H : knownPeriod period) :
  exists fd pt,
    SiteMap.filteredDataWith (Some d) fs period = Ok fd /\
    (forall b, keeps fs pt b = true <-> retained fs period b) /\
    Forall2 (fun f' f => siteWith f' f (filter (keeps fs pt) (buildings f)))
            (features fd)
            (filter (fun f => existsb (keeps fs pt) (buildings f)) (features d)) /\
    (forall f, In f (features d) ->
       (exists b, In b (buildings f) /\ retained fs period b) <->
       (exists f', In f' (features fd)
                   /\ siteWith f' f (filter (keeps fs pt) (buildings f)))) /\
    (forall f', In f' (features fd) ->
       buildings f' <> [] /\
       (forall b, In b (buildings f') -> retained fs period b) /\
       exists f, In f (features d)
                 /\ siteWith f' f (filter (keeps fs pt) (buildings f))).
Proof.
  destruct (filteredDataWith_known d fs H) as [pt [_ [Hfd Hkeep]]].
  eexists. exists pt. split; [exact Hfd|]. cbn [features].
  split; [exact Hkeep|].
  assert (F2 : Forall2 (fun f' f => siteWith f' f (filter (keeps fs pt) (buildings f)))
                 (map (fun f => withBuildings f (filter (keeps fs pt) (buildings f)))
                      (filter (fun f => existsb (keeps fs pt) (buildings f)) (features d)))
                 (filter (fun f => existsb (keeps fs pt) (buildings f)) (features d))).
  { apply Forall2_map_left. intros f. repeat split. }
  split; [exact F2|]. split.
  - intros f Hf. split.
    + intros [b [Hb Hr]].
      assert (Hfin : In f (filter (fun f => existsb (keeps fs pt) (buildings f))
                                  (features d))).
      { apply filter_In. split; [assumption|].
        apply existsb_exists. exists b. split; [assumption | now apply Hkeep]. }
      destruct (@Forall2_In_right _ _ _ _ _ f F2 Hfin) as [f' [Hin Hsw]].
      exists f'. split; assumption.
    + intros [f' [Hin [_ [_ Hbs]]]].
      destruct (@Forall2_In_left _ _ _ _ _ f' F2 Hin) as [g [Hg [_ [_ Hbs']]]].
      apply filter_In in Hg. destruct Hg as [_ Hex].
      apply existsb_exists in Hex. destruct Hex as [b [Hb Hk]].
      assert (Hb' : In b (buildings f')) by (rewrite Hbs'; now apply filter_In).
      rewrite Hbs in Hb'. apply filter_In in Hb'.
      exists b. split; [tauto | now apply Hkeep].
  - intros f' Hin. destruct (@Forall2_In_left _ _ _ _ _ f' F2 Hin) as [g [Hg Hsw]].
    apply filter_In in Hg. destruct Hg as [Hg Hex].
    pose proof Hsw as [_ [_ Hbs]]. split; [|split].
    + apply existsb_exists in Hex. destruct Hex as [b [Hb Hk]].
      intros E. assert (Hb' : In b (filter (keeps fs pt) (buildings g)))
        by now apply filter_In.
      rewrite <- Hbs, E in Hb'. contradiction.
    + intros b Hb. rewrite Hbs in Hb. apply filter_In in Hb. now apply Hkeep.
    + now exists g.
Qed.

Lemma site_pruning_witness :
  knownPeriod None /\
  exists fd pt,
    SiteMap.filteredDataWith (Some delphi) onlyDoric None = Ok fd /\
    (forall b, keeps onlyDoric pt b = true <-> retained onlyDoric None b) /\
    Forall2 (fun f' f => siteWith f' f (filter (keeps onlyDoric pt) (buildings f)))
            (features fd)
            (filter (fun f => existsb (keeps onlyDoric pt) (buildings f))
                    (features delphi)) /\
    (forall f, In f (features delphi) ->
       (exists b, In b (buildings f) /\ retained onlyDoric None b) <->
       (exists f', In f' (features fd)
                   /\ siteWith f' f (filter (keeps onlyDoric pt) (buildings f)))) /\
    (forall f', In f' (features fd) ->
       buildings f' <> [] /\
       (forall b, In b (buildings f') -> retained onlyDoric None b) /\
       exists f, In f (features delphi)
                 /\ siteWith f' f (filter (keeps onlyDoric pt) (buildings f))).
Proof.
  split; [left; reflexivity|].
  exact (site_pruning delphi onlyDoric (or_introl eq_refl)).
Defined.

(** With Doric selected the derived Delphi has building B1 only. *)
Example site_pruning_delphi :
  SiteMap.filteredDataWith (Some delphi) onlyDoric None
  = Ok {| features := [ {| site := "Delphi"; geometry := "Point"; buildings := [B1] |} ] |}
  /\ SiteMap.filteredDataWith (Some delphi)
       (SiteMap.toggleFilterIn SiteMap.KOrder "Corinthian" SiteMap.noFilters) None
     = Ok {| features := [] |}.
Proof. split; reflexivity. Qed.

(** With no selected value and no period every building is kept. *)
Lemma keeps_noFilters (b : building) : keeps SiteMap.noFilters None b = true.
Proof. reflexivity. Qed.

Lemma filteredDataWith_noFilters (d : dataset) :
  SiteMap.filteredDataWith (Some d) SiteMap.noFilters None =
  Ok {| features := filter hasBuildings (features d) |}.
Proof.
  unfold SiteMap.filteredDataWith, filteredDataOf. simpl. do 2 f_equal.
  rewrite mapFilterBoolean_filter_map with (keep := hasBuildings) (rebuild := fun f => f).
  - apply map_id.
  - intros f. unfold mapFeature, hasBuildings. cbv zeta.
    rewrite (@filter_all _ (keepBuilding SiteMap.attrOf SiteMap.filterAttrs
                              (SiteMap.lookup SiteMap.noFilters) None))
      by (intros b _; exact (@keeps_noFilters b)).
    rewrite withBuildings_same. reflexivity.
Qed.

(** C3, as stated, fails: a site without buildings is in the canonical
    dataset and not in the derived dataset of the empty filter. *)
Lemma empty_filter_identity_counterexample :
  SiteMap.filteredDataWith (Some bareSite) SiteMap.noFilters None <> Ok bareSite.
Proof. discriminate. Qed.

(** C3, amended. Empty filter identity: with the three attribute sets
    empty and no selected period the derived dataset is the canonical
    dataset without its sites that have no building, in the same order and
    with the same buildings; it is the canonical dataset itself when every
    site has a building. *)
Theorem empty_filter_identity (d : dataset) :
  SiteMap.filteredDataWith (Some d) SiteMap.noFilters None =
    Ok {| features := filter hasBuildings (features d) |}
  /\ ((forall f, In f (features d) -> buildings f <> []) ->
      SiteMap.filteredDataWith (Some d) SiteMap.noFilters None = Ok d).
Proof.
  split; [apply filteredDataWith_noFilters|].
  intros H. rewrite filteredDataWith_noFilters.
  rewrite filter_all; [now destruct d|].
  intros f Hf. specialize (H f Hf). unfold hasBuildings.
  destruct (buildings f); [contradiction | reflexivity].
Qed.

Lemma empty_filter_identity_witness :
  (forall f, In f (features delphi) -> buildings f <> []) /\
  SiteMap.filteredDataWith (Some delphi) SiteMap.noFilters None = Ok delphi.
Proof.
  assert (H : forall f, In f (features delphi) -> buildings f <> []).
  { intros f [<- | []]. discriminate. }
  split; [exact H | exact (proj2 (empty_filter_identity delphi) H)].
Defined.

(** ** Toggling a filter value *)

Lemma lookup_assign_same (fs : SiteMap.filterState) (k : SiteMap.key) (s : JsSet.t) :
  SiteMap.lookup (SiteMap.assign fs k s) k = s.
Proof. now destruct k. Qed.

Lemma lookup_assign_other (fs : SiteMap.filterState) (k k' : SiteMap.key) (s : JsSet.t) :
  k' <> k -> SiteMap.lookup (SiteMap.assign fs k s) k' = SiteMap.lookup fs k'.
Proof. destruct k, k'; intros H; try reflexivity; now contradiction H. Qed.

Lemma key_eq_dec (k k' : SiteMap.key) : {k = k'} + {k <> k'}.
Proof. decide equality. Qed.

(** The members of the set a toggle leaves under its key. *)
Lemma In_toggled (k : SiteMap.key) (v x : string) (fs : SiteMap.filterState) :
  In x (SiteMap.lookup (SiteMap.toggleFilterIn k v fs) k) <->
  if JsSet.has (SiteMap.lookup fs k) v
  then In x (SiteMap.lookup fs k) /\ x <> v
  else x = v \/ In x (SiteMap.lookup fs k).
Proof.
  unfold SiteMap.toggleFilterIn, JsSet.to_list. cbv zeta. rewrite lookup_assign_same.
  assert (E : JsSet.has (JsSet.of_list (SiteMap.lookup fs k)) v
              = JsSet.has (SiteMap.lookup fs k) v).
  { apply eq_true_iff_eq. rewrite !has_In. apply In_of_list. }
  rewrite E. destruct (JsSet.has (SiteMap.lookup fs k) v).
  - rewrite In_delete, In_of_list. reflexivity.
  - rewrite In_add, In_of_list. reflexivity.
Qed.

(** Two filter states that differ under one key, where the test of that
    key gets laxer: every building kept by the first is kept by the second. *)
Lemma keeps_laxer (fs fs' : SiteMap.filterState) (k : SiteMap.key)
  (pt : option JsSet.t) :
  (forall k', k' <> k -> SiteMap.lookup fs' k' = SiteMap.lookup fs k') ->
  (forall tgs, attrTest (SiteMap.lookup fs k) tgs -> attrTest (SiteMap.lookup fs' k) tgs) ->
  forall b, keeps fs pt b = true -> keeps fs' pt b = true.
Proof.
  intros Hother Hk b. unfold keeps. rewrite !keepBuilding_true.
  intros [H1 H2]. split; [|assumption].
  intros k' Hin. destruct (key_eq_dec k' k) as [-> | Hne].
  - apply Hk, H1, Hin.
  - rewrite (Hother k' Hne). apply H1, Hin.
Qed.

(** A selected set that is empty, or that grows from a non-empty one,
    gives the laxer test. *)
Lemma attrTest_laxer (s s' : JsSet.t) (tgs : list string) :
  s' = [] \/ (s <> [] /\ forall x, In x s -> In x s') ->
  attrTest s tgs -> attrTest s' tgs.
Proof.
  unfold attrTest. intros [-> | [Hne Hsub]] H Hne'; [contradiction|].
  destruct (H Hne) as [v [Hv Hs]]. exists v. auto.
Qed.

Lemma filteredDataWith_pt (d : dataset) (fs : SiteMap.filterState)
  (period : option string) (pt : option JsSet.t) :
  periodTagsOf period = Ok pt ->
  SiteMap.filteredDataWith (Some d) fs period =
  Ok {| features :=
          mapFilterBoolean
            (mapFeature SiteMap.attrOf SiteMap.filterAttrs (SiteMap.lookup fs) pt)
            (features d) |}.
Proof.
  intros Hpt. unfold SiteMap.filteredDataWith, filteredDataOf. now rewrite Hpt.
Qed.

Lemma derived_mono (d : dataset) (fs fs' : SiteMap.filterState) (pt : option JsSet.t) :
  (forall b, keeps fs pt b = true -> keeps fs' pt b = true) ->
  subDataset
    {| features :=
         mapFilterBoolean
           (mapFeature SiteMap.attrOf SiteMap.filterAttrs (SiteMap.lookup fs) pt)
           (features d) |}
    {| features :=
         mapFilterBoolean
           (mapFeature SiteMap.attrOf SiteMap.filterAttrs (SiteMap.lookup fs') pt)
           (features d) |}.
Proof.
  intros Hk. unfold subDataset. cbn [features]. now apply mapFilterBoolean_mono.
Qed.

Lemma toggle_other (k k' : SiteMap.key) (v : string) (fs : SiteMap.filterState) :
  k' <> k ->
  SiteMap.lookup (SiteMap.toggleFilterIn k v fs) k' = SiteMap.lookup fs k'.
Proof. intros H. unfold SiteMap.toggleFilterIn. cbv zeta. now apply lookup_assign_other. Qed.

(** C2, as stated, fails: with Doric selected, adding Ionic to the order
    set brings building B2 into the derived dataset, which is then not
    within the derived dataset before the addition. *)
Lemma filter_monotonicity_counterexample :
  JsSet.has (SiteMap.lookup onlyDoric SiteMap.KOrder) "Ionic" = false /\
  exists fd fd',
    SiteMap.filteredDataWith (Some delphi) onlyDoric None = Ok fd /\
    SiteMap.filteredDataWith (Some delphi)
      (SiteMap.toggleFilterIn SiteMap.KOrder "Ionic" onlyDoric) None = Ok fd' /\
    ~ subDataset fd' fd.
Proof.
  split; [reflexivity|]. do 2 eexists. split; [reflexivity|]. split; [reflexivity|].
  unfold subDataset. intros Hsub. vm_compute in Hsub.
  pose proof (subFeatures_In Hsub _ B2 (or_introl eq_refl) (or_intror (or_introl eq_refl)))
    as Hin.
  destruct Hin as [f2 [[<- | []] [_ [E | []]]]]. discriminate E.
Qed.

(** C2, amended. The selected set of an attribute is a disjunction, so a
    toggle moves the derived dataset in the direction the test of that
    attribute moves.  Adding a value to an empty set can only shrink the
    derived dataset; adding a value to a non-empty set can only grow it;
    removing a value that leaves the set non-empty can only shrink it;
    removing the last value can only grow it. *)
Theorem filter_monotonicity (d : dataset) (fs : SiteMap.filterState)
  (period : option string) (k : SiteMap.key) (v : string)
  (H : knownPeriod period) :
  exists fd fd',
    SiteMap.filteredDataWith (Some d) fs period = Ok fd /\
    SiteMap.filteredDataWith (Some d) (SiteMap.toggleFilterIn k v fs) period = Ok fd' /\
    (JsSet.has (SiteMap.lookup fs k) v = false ->
       (SiteMap.lookup fs k = [] -> subDataset fd' fd) /\
       (SiteMap.lookup fs k <> [] -> subDataset fd fd')) /\
    (JsSet.has (SiteMap.lookup fs k) v = true ->
       (SiteMap.lookup (SiteMap.toggleFilterIn k v fs) k <> [] -> subDataset fd' fd) /\
       (SiteMap.lookup (SiteMap.toggleFilterIn k v fs) k = [] -> subDataset fd fd')).
Proof.
  destruct (periodTagsOf_known H) as [pt [Hpt _]].
  do 2 eexists.
  split; [exact (@filteredDataWith_pt d fs period pt Hpt)|].
  split; [exact (@filteredDataWith_pt d _ period pt Hpt)|].
  pose proof (fun x => In_toggled k v x fs) as Hin.
  split; intros Hhas; rewrite Hhas in Hin; split; intros Hs; apply derived_mono.
  - (* the first value of the set *)
    apply keeps_laxer with (k := k).
    + intros k' Hne. symmetry. now apply toggle_other.
    + intros tgs. apply attrTest_laxer. now left.
  - (* one more value *)
    apply keeps_laxer with (k := k).
    + intros k' Hne. now apply toggle_other.
    + intros tgs. apply attrTest_laxer. right. split; [assumption|].
      intros x Hx. apply Hin. now right.
  - (* a value removed, others left *)
    apply keeps_laxer with (k := k).
    + intros k' Hne. symmetry. now apply toggle_other.
    + intros tgs. apply attrTest_laxer. right. split; [assumption|].
      intros x Hx. now apply Hin in Hx.
  - (* the last value removed *)
    apply keeps_laxer with (k := k).
    + intros k' Hne. now apply toggle_other.
    + intros tgs. apply attrTest_laxer. now left.
Qed.

Lemma filter_monotonicity_witness :
  knownPeriod None /\
  exists fd fd',
    SiteMap.filteredDataWith (Some delphi) onlyDoric None = Ok fd /\
    SiteMap.filteredDataWith (Some delphi)
      (SiteMap.toggleFilterIn SiteMap.KOrder "Ionic" onlyDoric) None = Ok fd' /\
    (JsSet.has (SiteMap.lookup onlyDoric SiteMap.KOrder) "Ionic" = false ->
       (SiteMap.lookup onlyDoric SiteMap.KOrder = [] -> subDataset fd' fd) /\
       (SiteMap.lookup onlyDoric SiteMap.KOrder <> [] -> subDataset fd fd')) /\
    (JsSet.has (SiteMap.lookup onlyDoric SiteMap.KOrder) "Ionic" = true ->
       (SiteMap.lookup (SiteMap.toggleFilterIn SiteMap.KOrder "Ionic" onlyDoric)
                       SiteMap.KOrder <> [] -> subDataset fd' fd) /\
       (SiteMap.lookup (SiteMap.toggleFilterIn SiteMap.KOrder "Ionic" onlyDoric)
                       SiteMap.KOrder = [] -> subDataset fd fd')).
Proof.
  split; [left; reflexivity|].
  exact (filter_monotonicity delphi onlyDoric SiteMap.KOrder "Ionic" (or_introl eq_refl)).
Defined.

(** ** The period table *)

(** C9. Unknown period id: for an id that is not one of the six ids of the
    table the lookup of its tag set throws instead of returning, and so
    does the derived dataset of a loaded component whose selected period
    is that (non-empty) id; for each of the six ids the lookup returns
    the set of that segment's tags. *)
Theorem unknown_period_throws :
  map seg_id timelineSegments =
    ["archaic"; "classical"; "hellenistic"; "republican"; "earlyEmpire"; "lateEmpire"]
  /\ (forall periodId,
        ~ In periodId (map seg_id timelineSegments) ->
        tagsOf periodId = Throw TypeError
        /\ (truthy (Some periodId) = true ->
            forall d fs,
              SiteMap.filteredDataWith (Some d) fs (Some periodId) = Throw TypeError))
  /\ (forall seg,
        In seg timelineSegments ->
        exists s, tagsOf (seg_id seg) = Ok s /\ forall tag, In tag s <-> In tag (tags seg)).
Proof.
  split; [reflexivity|]. split.
  - intros periodId Hun.
    assert (Ht : tagsOf periodId = Throw TypeError).
    { unfold tagsOf. now rewrite (@findSegment_unknown periodId Hun). }
    split; [exact Ht|]. intros Htr d fs.
    unfold SiteMap.filteredDataWith, filteredDataOf, periodTagsOf.
    now rewrite Htr, Ht.
  - intros seg Hin. exists (JsSet.of_list (tags seg)). split.
    + unfold tagsOf. now rewrite (findSegment_known Hin).
    + intros tag. apply In_of_list.
Qed.

Lemma unknown_period_throws_witness :
  ~ In "medieval" (map seg_id timelineSegments)
  /\ tagsOf "medieval" = Throw TypeError
  /\ SiteMap.filteredDataWith (Some delphi) onlyDoric (Some "medieval") = Throw TypeError.
Proof.
  assert (Hun : ~ In "medieval" (map seg_id timelineSegments)).
  { simpl. intros H. repeat (destruct H as [H | H]; [discriminate H|]). exact H. }
  split; [exact Hun|].
  destruct (proj1 (proj2 unknown_period_throws) "medieval" Hun) as [Ht Hf].
  split; [exact Ht | exact (Hf eq_refl delphi onlyDoric)].
Defined.

(** ** Clearing the filters *)

Lemma filteredDataWith_noFilters_v4 (d : dataset) :
  SiteMapV4.filteredDataWith (Some d) SiteMapV4.noFilters None =
  Ok {| features := filter hasBuildings (features d) |}.
Proof.
  unfold SiteMapV4.filteredDataWith, filteredDataOf. simpl. do 2 f_equal.
  rewrite mapFilterBoolean_filter_map with (keep := hasBuildings) (rebuild := fun f => f).
  - apply map_id.
  - intros f. unfold mapFeature, hasBuildings. cbv zeta.
    rewrite (@filter_all _ (keepBuilding (fun a => a) SiteMapV4.filterAttrs
                              (SiteMapV4.lookup SiteMapV4.noFilters) None))
      by reflexivity.
    rewrite withBuildings_same. reflexivity.
Qed.

(** C10. [clearFilters] empties every selected set and sets the selected
    period to none in one transition, and changes nothing else; the next
    derived dataset is the one of no attribute and no period constraint.
    This holds in both components. *)
Theorem clear_filters_clears_period :
  (forall st : SiteMap.state,
      let st' := SiteMap.clearFilters st in
      (forall k, SiteMap.lookup (SiteMap.filters st') k = JsSet.empty)
      /\ SiteMap.selectedPeriod st' = None
      /\ SiteMap.data st' = SiteMap.data st
      /\ SiteMap.selectedSite st' = SiteMap.selectedSite st
      /\ SiteMap.selectedBuildingDocId st' = SiteMap.selectedBuildingDocId st
      /\ SiteMap.hoveredSegment st' = SiteMap.hoveredSegment st
      /\ SiteMap.dropdownOpen st' = SiteMap.dropdownOpen st
      /\ forall d, SiteMap.data st = Some d ->
           SiteMap.filteredData st' = Ok {| features := filter hasBuildings (features d) |})
  /\ (forall st : SiteMapV4.state,
      let st' := SiteMapV4.clearFilters st in
      (forall k, SiteMapV4.lookup (SiteMapV4.filters st') k = JsSet.empty)
      /\ SiteMapV4.selectedPeriod st' = None
      /\ SiteMapV4.data st' = SiteMapV4.data st
      /\ SiteMapV4.selectedSite st' = SiteMapV4.selectedSite st
      /\ SiteMapV4.selectedBuilding st' = SiteMapV4.selectedBuilding st
      /\ SiteMapV4.hoveredSegment st' = SiteMapV4.hoveredSegment st
      /\ SiteMapV4.dropdownOpen st' = SiteMapV4.dropdownOpen st
      /\ forall d, SiteMapV4.data st = Some d ->
           SiteMapV4.filteredData st' = Ok {| features := filter hasBuildings (features d) |}).
Proof.
  split; intros st; cbv zeta; (split; [intros k; now destruct k|]);
    repeat (split; [reflexivity|]); intros d Hd.
  - unfold SiteMap.filteredData. simpl. rewrite Hd. apply filteredDataWith_noFilters.
  - unfold SiteMapV4.filteredData. simpl. rewrite Hd. apply filteredDataWith_noFilters_v4.
Qed.

Lemma clear_filters_clears_period_witness :
  SiteMap.data staleState = Some delphi
  /\ SiteMap.filteredData (SiteMap.clearFilters staleState) = Ok delphi.
Proof.
  split; [reflexivity|].
  destruct (proj1 clear_filters_clears_period staleState)
    as [_ [_ [_ [_ [_ [_ [_ H]]]]]]].
  exact (H delphi eq_refl).
Defined.

(** ** Selection *)




Lemma find_In (A : Type) (p : A -> bool) (l : list A) (x : A) :
  find p l = Some x -> In x l /\ p x = true.
Proof. apply find_some. Qed.

(** The keys of [visibleDocIds] are the doc_ids of the buildings of the
    first site of the derived dataset that bears the selected name. *)
Lemma visible_key (fd : dataset) (st : SiteMap.state) (docId : string) :
  JsSet.has (SiteMap.visibleDocIds fd st) docId = true <->
  exists f b, SiteMap.siteFeat fd st = Some f /\ In b (buildings f) /\ doc_id b = docId.
Proof.
  unfold SiteMap.visibleDocIds, SiteMap.siteFeat.
  rewrite has_In, In_of_list.
  destruct (find (siteIs (SiteMap.selectedSite st)) (features fd)) as [f|].
  - rewrite in_map_iff. split.
    + intros [b [He Hb]]. exists f, b. auto.
    + intros [f' [b [Hf [Hb He]]]]. injection Hf as <-. exists b. auto.
  - split; [contradiction | intros [f [b [Hf _]]]; discriminate].
Qed.

(** C7. Visibility gate.  In the doc_id-keyed component the handler of a
    list entry does nothing for a key that no building of the derived
    dataset under the selected site bears, and a call that changes the
    state selects the key of a building that is at the selected site in
    the derived dataset, which [buildingObj] then finds.  In
    [SiteMap_v4.js] the handler has no test of its own, and list entries
    exist for buildings of the derived dataset under the selected site
    only. *)
Theorem visibility_gate :
  (forall (st : SiteMap.state) (fd : dataset) (docId : string),
      SiteMap.filteredData st = Ok fd ->
      (forall f b, In f (features fd) -> siteIs (SiteMap.selectedSite st) f = true ->
                   In b (buildings f) -> doc_id b <> docId) ->
      SiteMap.selectBuilding fd docId st = st)
  /\ (forall (st : SiteMap.state) (fd : dataset) (docId : string),
      SiteMap.filteredData st = Ok fd ->
      SiteMap.selectBuilding fd docId st <> st ->
      exists f b,
        In f (features fd) /\ siteIs (SiteMap.selectedSite st) f = true
        /\ In b (buildings f) /\ doc_id b = docId
        /\ SiteMap.selectedBuildingDocId (SiteMap.selectBuilding fd docId st) = Some docId
        /\ SiteMap.buildingObj fd (SiteMap.selectBuilding fd docId st) = Some b)
  /\ (forall (st : SiteMapV4.state) (fd : dataset) (b : building),
      SiteMapV4.filteredData st = Ok fd ->
      In b (SiteMapV4.listedBuildings fd st) ->
      exists f,
        In f (features fd) /\ siteIs (SiteMapV4.selectedSite st) f = true
        /\ In b (buildings f)).
Proof.
  split; [|split].
  - intros st fd docId _ Hno. unfold SiteMap.selectBuilding. cbv zeta.
    destruct (JsSet.has (SiteMap.visibleDocIds fd st) docId) eqn:E; [|reflexivity].
    apply visible_key in E. destruct E as [f [b [Hf [Hb He]]]].
    apply find_In in Hf. destruct Hf as [Hin Hs].
    now destruct (Hno f b Hin Hs Hb).
  - intros st fd docId _ Hch. unfold SiteMap.selectBuilding in *. cbv zeta in *.
    destruct (JsSet.has (SiteMap.visibleDocIds fd st) docId) eqn:E;
      [|now contradiction Hch].
    apply visible_key in E. destruct E as [f [b [Hf [Hb He]]]].
    unfold SiteMap.buildingObj, SiteMap.siteFeat in *. simpl. rewrite Hf.
    destruct (find (fun b0 => String.eqb (doc_id b0) docId) (buildings f)) as [b'|] eqn:F.
    + apply find_In in F. destruct F as [Hb' He']. apply String.eqb_eq in He'.
      apply find_In in Hf. destruct Hf as [Hin Hs].
      exists f, b'. repeat split; auto.
    + exfalso. apply (find_none _ _ F) in Hb. rewrite He, String.eqb_refl in Hb.
      discriminate.
  - intros st fd b _ Hb. unfold SiteMapV4.listedBuildings in Hb.
    destruct (SiteMapV4.siteFeat fd st) as [f|] eqn:Hf; [|contradiction].
    destruct (SiteMapV4.buildingObj fd st); [contradiction|].
    apply find_In in Hf. destruct Hf as [Hin Hs]. now exists f.
Qed.

(** With Doric selected, B2 is not visible at Delphi and its list entry
    does nothing. *)
Lemma visibility_gate_witness :
  SiteMap.filteredData (SiteMap.setSelectedBuildingDocId None staleState)
    = Ok {| features := [withBuildings {| site := "Delphi"; geometry := "Point";
                                          buildings := [B1; B2] |} [B1]] |}
  /\ SiteMap.selectBuilding
       {| features := [withBuildings {| site := "Delphi"; geometry := "Point";
                                        buildings := [B1; B2] |} [B1]] |}
       "B2" (SiteMap.setSelectedBuildingDocId None staleState)
     = SiteMap.setSelectedBuildingDocId None staleState.
Proof.
  split; [reflexivity|].
  refine (proj1 visibility_gate (SiteMap.setSelectedBuildingDocId None staleState)
            _ "B2" eq_refl _).
  intros f b [<- | []] _ [<- | []]. discriminate.
Defined.

(** ** The option lists *)

Lemma In_sort_insert (x v : string) (l : list string) :
  In x (sort_insert v l) <-> x = v \/ In x l.
Proof.
  induction l as [|y l IH]; simpl.
  - intuition.
  - destruct (codeUnitLeb v y); simpl; [|rewrite IH]; intuition.
Qed.

Lemma In_sort (x : string) (l : list string) : In x (sort l) <-> In x l.
Proof.
  unfold sort. induction l as [|y l IH]; simpl; [reflexivity|].
  rewrite In_sort_insert, IH. intuition.
Qed.

(** The three sets hold the order, morphology and age tags of the
    buildings of the dataset. *)
Lemma collectBuilding_morphology (bs : list building) (acc : optionSets) (x : string) :
  In x (snd (fst (fold_left collectBuilding bs acc))) <->
  (exists b, In b bs /\ In x (morphology b)) \/ In x (snd (fst acc)).
Proof.
  revert acc. induction bs as [|b bs IH]; intros [[o m] a]; simpl.
  - split; [now right | intros [[b [[] _]] | H]; assumption].
  - rewrite IH. simpl. rewrite In_addAll. split.
    + intros [[b' [Hb Hx]] | [Hx | Hx]]; [left; exists b' | left; exists b | right]; auto.
    + intros [[b' [[<- | Hb] Hx]] | Hx]; [right; now left | left; exists b'; auto|].
      right; now right.
Qed.

Lemma collectOptions_morphology (d : dataset) (x : string) :
  In x (snd (fst (collectOptions d))) <->
  exists f b, In f (features d) /\ In b (buildings f) /\ In x (morphology b).
Proof.
  unfold collectOptions.
  assert (G : forall fs acc,
             In x (snd (fst (fold_left
                               (fun acc f => fold_left collectBuilding (buildings f) acc)
                               fs acc))) <->
             (exists f b, In f fs /\ In b (buildings f) /\ In x (morphology b))
             \/ In x (snd (fst acc))).
  { induction fs as [|f fs IH]; intros acc; simpl.
    - split; [now right | intros [[f [b [[] _]]] | H]; assumption].
    - rewrite IH, collectBuilding_morphology. split.
      + intros [[f' [b [Hf H]]] | [[b [Hb Hx]] | Hx]].
        * left. exists f', b. auto.
        * left. exists f, b. auto.
        * now right.
      + intros [[f' [b [[<- | Hf] [Hb Hx]]]] | Hx].
        * right. left. now exists b.
        * left. exists f', b. auto.
        * right. now right. }
  rewrite G. simpl. split; [intros [H | []]; exact H | now left].
Qed.

(** The morphology option list of the doc_id-keyed component: the
    morphology tags of the dataset that are on the allow-list. *)
Lemma morphology_options_allowed (d : dataset) (v : string) :
  In v (morphologyOptions (SiteMap.allOptions (Some d))) <->
  In v allowedMorphologies /\
  exists f b, In f (features d) /\ In b (buildings f) /\ In v (morphology b).
Proof.
  unfold SiteMap.allOptions.
  pose proof (collectOptions_morphology d v) as H.
  destruct (collectOptions d) as [[o m] a].
  cbn [fst snd morphologyOptions] in *. unfold JsSet.to_list.
  rewrite In_sort, filter_In, includes_In, H. tauto.
Qed.

(** The morphology option list of [SiteMap_v4.js]: every morphology tag
    of the dataset. *)
Lemma morphology_options_v4 (d : dataset) (v : string) :
  In v (morphologyOptions (SiteMapV4.allOptions (Some d))) <->
  exists f b, In f (features d) /\ In b (buildings f) /\ In v (morphology b).
Proof.
  unfold SiteMapV4.allOptions.
  pose proof (collectOptions_morphology d v) as H.
  destruct (collectOptions d) as [[o m] a].
  cbn [fst snd morphologyOptions] in *. unfold JsSet.to_list.
  now rewrite In_sort.
Qed.

(** C5. Morphology option restriction: the option list of the doc_id-keyed
    component holds values of the allow-list only, for every dataset, and
    the one of [SiteMap_v4.js] does not: for the Delphi dataset, where
    building B2 bears the tag hypostyle, it is hypostyle and peripteral,
    and hypostyle is not on the allow-list. *)
Theorem morphology_option_restriction :
  (forall d v, In v (morphologyOptions (SiteMap.allOptions d)) ->
               In v allowedMorphologies)
  /\ morphologyOptions (SiteMap.allOptions (Some delphi)) = ["peripteral"]
  /\ morphologyOptions (SiteMapV4.allOptions (Some delphi)) = ["hypostyle"; "peripteral"]
  /\ ~ In "hypostyle" allowedMorphologies.
Proof.
  split; [|split; [reflexivity | split; [reflexivity|]]].
  - intros [d|] v H; [|contradiction]. now apply morphology_options_allowed in H.
  - simpl. intros H. repeat (destruct H as [H | H]; [discriminate H|]). exact H.
Qed.

(** ** The sanitizer *)

Lemma length_update (h : Loader.heap) (l : Loader.loc) (b : Loader.rawBuilding) :
  length (Loader.update h l b) = length h.
Proof.
  revert l. induction h as [|x h IH]; intros [|l]; simpl; auto.
Qed.

Lemma nth_update_same (h : Loader.heap) (l : Loader.loc) (b x : Loader.rawBuilding) :
  nth_error h l = Some x -> nth_error (Loader.update h l b) l = Some b.
Proof.
  revert l. induction h as [|y h IH]; intros [|l]; simpl; try discriminate; auto.
Qed.

Lemma nth_update_other (h : Loader.heap) (l l' : Loader.loc) (b : Loader.rawBuilding) :
  l' <> l -> nth_error (Loader.update h l b) l' = nth_error h l'.
Proof.
  revert l l'. induction h as [|y h IH]; intros l l' H; [reflexivity|].
  destruct l as [|l], l' as [|l']; simpl; try reflexivity.
  - now contradiction H.
  - apply IH. congruence.
Qed.

Lemma update_same (h : Loader.heap) (l : Loader.loc) (b : Loader.rawBuilding) :
  nth_error h l = Some b -> Loader.update h l b = h.
Proof.
  revert l. induction h as [|y h IH]; intros [|l]; simpl; try discriminate.
  - now intros [= ->].
  - intros H. f_equal. now apply IH.
Qed.

Lemma update_update (h : Loader.heap) (l : Loader.loc) (b b' : Loader.rawBuilding) :
  Loader.update (Loader.update h l b) l b' = Loader.update h l b'.
Proof.
  revert l. induction h as [|y h IH]; intros [|l]; simpl; auto. f_equal. apply IH.
Qed.

Lemma filter_idem (A : Type) (p : A -> bool) (l : list A) :
  filter p (filter p l) = filter p l.
Proof.
  induction l as [|x l IH]; simpl; [reflexivity|].
  destruct (p x) eqn:E; simpl; [rewrite E; f_equal|]; exact IH.
Qed.

Lemma cleanMember_idem (m : Loader.member) :
  cleanMember (cleanMember m) = cleanMember m.
Proof. destruct m; simpl; [now rewrite filter_idem | reflexivity]. Qed.

(** Sanitizer idempotence: cleaning a cleaned building changes nothing. *)
Lemma cleanBuilding_idem (b : Loader.rawBuilding) :
  cleanBuilding (cleanBuilding b) = cleanBuilding b.
Proof. unfold cleanBuilding. simpl. now rewrite !cleanMember_idem. Qed.

(** One iteration of the innermost loop stores the building with that
    one member cleaned. *)
Lemma sanitizeAttr_spec (h : Loader.heap) (l : Loader.loc) (a : attr)
  (b : Loader.rawBuilding) :
  nth_error h l = Some b ->
  Loader.sanitizeAttr l h a =
  Loader.update h l (Loader.rawSet b a (cleanMember (Loader.rawGet b a))).
Proof.
  intros H. unfold Loader.sanitizeAttr. rewrite H.
  destruct (Loader.rawGet b a) as [vs | v] eqn:E; [reflexivity|].
  simpl. symmetry. apply update_same. rewrite H. f_equal.
  destruct b, a; simpl in *; now subst.
Qed.

(** The four iterations on one building store its cleaned form. *)
Lemma sanitizeBuilding_spec (h : Loader.heap) (l : Loader.loc) (b : Loader.rawBuilding) :
  nth_error h l = Some b ->
  Loader.sanitizeBuilding h l = Loader.update h l (cleanBuilding b).
Proof.
  intros H. unfold Loader.sanitizeBuilding. simpl.
  assert (step : forall a b', Loader.sanitizeAttr l (Loader.update h l b') a =
            Loader.update h l (Loader.rawSet b' a (cleanMember (Loader.rawGet b' a)))).
  { intros a b'. rewrite (@sanitizeAttr_spec _ l a b') by (eapply nth_update_same; exact H).
    apply update_update. }
  rewrite (@sanitizeAttr_spec h l Order b H), !step. reflexivity.
Qed.

Lemma sanitizeBuilding_dangling (h : Loader.heap) (l : Loader.loc) :
  nth_error h l = None -> Loader.sanitizeBuilding h l = h.
Proof.
  intros H. unfold Loader.sanitizeBuilding, Loader.sanitizeAttr. simpl. now rewrite !H.
Qed.

Lemma sanitizeBuilding_at (h : Loader.heap) (l : Loader.loc) :
  nth_error (Loader.sanitizeBuilding h l) l =
  option_map cleanBuilding (nth_error h l).
Proof.
  destruct (nth_error h l) as [b|] eqn:E.
  - rewrite (@sanitizeBuilding_spec h l b E). simpl. now apply nth_update_same with (x := b).
  - rewrite (@sanitizeBuilding_dangling h l E). now rewrite E.
Qed.

Lemma sanitizeBuilding_elsewhere (h : Loader.heap) (l l' : Loader.loc) :
  l' <> l -> nth_error (Loader.sanitizeBuilding h l) l' = nth_error h l'.
Proof.
  intros Hne. destruct (nth_error h l) as [b|] eqn:E.
  - rewrite (@sanitizeBuilding_spec h l b E). now apply nth_update_other.
  - now rewrite (@sanitizeBuilding_dangling h l E).
Qed.

Lemma length_sanitizeBuilding (h : Loader.heap) (l : Loader.loc) :
  length (Loader.sanitizeBuilding h l) = length h.
Proof.
  destruct (nth_error h l) as [b|] eqn:E.
  - rewrite (@sanitizeBuilding_spec h l b E). apply length_update.
  - now rewrite (@sanitizeBuilding_dangling h l E).
Qed.

Lemma option_map_clean_idem (o : option Loader.rawBuilding) :
  option_map cleanBuilding (option_map cleanBuilding o) =
  option_map cleanBuilding o.
Proof. destruct o; simpl; [now rewrite cleanBuilding_idem | reflexivity]. Qed.

(** The store after the loop over a list of locations. *)
Lemma sanitize_locs (ls : list Loader.loc) (h : Loader.heap) :
  length (fold_left Loader.sanitizeBuilding ls h) = length h
  /\ forall l,
       (In l ls -> nth_error (fold_left Loader.sanitizeBuilding ls h) l
                   = option_map cleanBuilding (nth_error h l))
       /\ (~ In l ls -> nth_error (fold_left Loader.sanitizeBuilding ls h) l
                        = nth_error h l).
Proof.
  revert h. induction ls as [|l0 ls IH]; intros h; simpl.
  - split; [reflexivity|]. intros l. split; [contradiction | reflexivity].
  - destruct (IH (Loader.sanitizeBuilding h l0)) as [Hlen Hat].
    split; [now rewrite Hlen, length_sanitizeBuilding|].
    intros l. destruct (Hat l) as [Hin Hout].
    destruct (Nat.eq_dec l l0) as [-> | Hne].
    + split; [|intros H; contradiction H; now left]. intros _.
      destruct (in_dec Nat.eq_dec l0 ls) as [Hi | Hi].
      * rewrite (Hin Hi), sanitizeBuilding_at. apply option_map_clean_idem.
      * rewrite (Hout Hi). apply sanitizeBuilding_at.
    + rewrite (@sanitizeBuilding_elsewhere h l0 l Hne) in Hin, Hout. split.
      * intros [E | Hi]; [congruence | auto].
      * intros Hn. apply Hout. intros Hi. apply Hn. now right.
Qed.

Lemma sanitize_flat (raw : Loader.payload) (h : Loader.heap) :
  Loader.sanitize h raw = fold_left Loader.sanitizeBuilding (Loader.locsOf raw) h.
Proof.
  unfold Loader.sanitize, Loader.locsOf. revert h.
  induction raw as [|f raw IH]; intros h; simpl; [reflexivity|].
  rewrite fold_left_app. apply IH.
Qed.

(** C4, as stated, fails: after loading, a reader of the fetched payload
    sees the cleaned arrays and not the arrays as received. *)
Lemma sanitizer_no_mutation_counterexample :
  Loader.observe (fst (Loader.load rawHeap rawDelphi)) rawDelphi
  <> Loader.observe rawHeap rawDelphi.
Proof. discriminate. Qed.

(** C4, amended. The sanitizer works in place: [data] is the fetched
    payload itself, every building object of the payload holds its
    cleaned form (each array member without its falsy and placeholder
    entries, every other member as it was) in the store after loading, and
    no other object of the store is changed; no second, cleaned copy
    exists. *)
Theorem sanitizer_in_place (h : Loader.heap) (raw : Loader.payload) :
  snd (Loader.load h raw) = raw
  /\ length (fst (Loader.load h raw)) = length h
  /\ (forall l, In l (Loader.locsOf raw) ->
        nth_error (fst (Loader.load h raw)) l
        = option_map cleanBuilding (nth_error h l))
  /\ (forall l, ~ In l (Loader.locsOf raw) ->
        nth_error (fst (Loader.load h raw)) l = nth_error h l).
Proof.
  unfold Loader.load. cbn [fst snd]. rewrite sanitize_flat.
  destruct (sanitize_locs (Loader.locsOf raw) h) as [Hlen Hat].
  split; [reflexivity|]. split; [exact Hlen|].
  split; intros l Hl; now apply Hat.
Qed.

Lemma sanitizer_in_place_witness :
  In 0 (Loader.locsOf rawDelphi)
  /\ nth_error (fst (Loader.load rawHeap rawDelphi)) 0
     = option_map cleanBuilding (nth_error rawHeap 0).
Proof.
  assert (H : In 0 (Loader.locsOf rawDelphi)) by (left; reflexivity).
  split; [exact H|].
  exact (proj1 (proj2 (proj2 (sanitizer_in_place rawHeap rawDelphi))) 0 H).
Defined.

(** An entry the sanitizer keeps is a string that is not empty and is
    neither of the two placeholders. *)
Lemma cleaned_entries (vs : list (option string)) (v : option string) :
  In v (filter Loader.keepValue vs) <->
  In v vs /\ exists s, v = Some s /\ s <> ""
                       /\ Loader.toLowerCase s <> "undetermined" /\ s <> "<NA>".
Proof.
  rewrite filter_In. unfold Loader.keepValue, truthy.
  destruct v as [s|].
  - rewrite !andb_true_iff, !negb_true_iff, !String.eqb_neq. split.
    + intros [Hin [[H1 H2] H3]]. split; [assumption|]. now exists s.
    + intros [Hin [s' [[= <-] [H1 [H2 H3]]]]]. auto.
  - split; [intros [_ H]; discriminate | intros [_ [s [H _]]]; discriminate].
Qed.

(** ** The scenarios of the specification *)

(** Conjunction and disjunction of the selected values. *)
Example doric_keeps_B1 : keeps onlyDoric None B1 = true /\ keeps onlyDoric None B2 = false.
Proof. split; reflexivity. Qed.

(** Period gating: the archaic period keeps B2, whose age is Archaic, and
    not B1, whose age is Classical. *)
Example archaic_keeps_B2 :
  SiteMap.filteredDataWith (Some delphi) SiteMap.noFilters (Some "archaic") =
  Ok {| features := [ {| site := "Delphi"; geometry := "Point"; buildings := [B2] |} ] |}.
Proof. reflexivity. Qed.

(** End to end: period classical leaves Delphi with B1 only; toggling the
    order value Ionic on top of it leaves no site. *)
Example classical_then_ionic :
  SiteMap.filteredDataWith (Some delphi) SiteMap.noFilters (Some "classical") =
    Ok {| features := [ {| site := "Delphi"; geometry := "Point"; buildings := [B1] |} ] |}
  /\ SiteMap.filteredDataWith (Some delphi)
       (SiteMap.toggleFilterIn SiteMap.KOrder "Ionic" SiteMap.noFilters)
       (Some "classical") = Ok {| features := [] |}.
Proof. split; reflexivity. Qed.

(** Toggling the same value twice restores the selected set. *)
Example toggle_twice :
  SiteMap.toggleFilterIn SiteMap.KOrder "Ionic"
    (SiteMap.toggleFilterIn SiteMap.KOrder "Ionic" onlyDoric) = onlyDoric.
Proof. reflexivity. Qed.

(** The sanitizer on the store of the example. *)
Example sanitized_temple :
  nth_error (fst (Loader.load rawHeap rawDelphi)) 0 =
  Some {| Loader.raw_doc_id := "B1"; Loader.raw_id := "Temple of Apollo";
          Loader.raw_order := Loader.Arr [Some "Doric"];
          Loader.raw_morphology := Loader.Arr [];
          Loader.raw_age := Loader.Arr [Some "Classical"];
          Loader.raw_date := Loader.Scalar (Some "undetermined");
          Loader.raw_url := Loader.Scalar (Some "https://example.org/B1") |}.
Proof. reflexivity. Qed.

(** A selection whose building is still in the derived dataset survives
    the recomputation. *)
Lemma selection_kept (st : SiteMap.state) (fd : dataset) (f : feature) (b : building) :
  SiteMap.filteredData st = Ok fd ->
  In f (features fd) -> In b (buildings f) ->
  SiteMap.selectedBuildingDocId st = Some (doc_id b) ->
  SiteMap.recompute st = Ok st.
Proof.
  intros Hfd Hf Hb Hsel. unfold SiteMap.recompute. rewrite Hfd. f_equal.
  unfold SiteMap.clearIfFilteredOut. rewrite Hsel.
  destruct (truthy (Some (doc_id b))); [|reflexivity]. cbv zeta.
  assert (E : existsb (fun f0 => existsb (fun b0 => String.eqb (doc_id b0) (doc_id b))
                                         (buildings f0)) (features fd) = true).
  { apply existsb_exists. exists f. split; [assumption|].
    apply existsb_exists. exists b. split; [assumption | apply String.eqb_refl]. }
  now rewrite E.
Qed.

(** The stale selection of the example is cleared in [SiteMap_v4.js] too. *)
Example stale_selection_v4 :
  SiteMapV4.recompute staleStateV4 = Ok (SiteMapV4.setSelectedBuilding None staleStateV4).
Proof. reflexivity. Qed.

(** With no filter both buildings of Delphi are visible, and the list
    entry of B2 selects it. *)
Example visible_building_selected :
  SiteMap.selectedBuildingDocId
    (SiteMap.selectBuilding delphi "B2"
       (SiteMap.clearFilters (SiteMap.setSelectedBuildingDocId None staleState)))
  = Some "B2".
Proof. reflexivity. Qed.

(** ** Further properties of the derived dataset *)

Lemma subseq_filter_self (A : Type) (p : A -> bool) (l : list A) :
  subseq (filter p l) l.
Proof.
  induction l as [|x l IH]; simpl; [constructor|].
  destruct (p x); now constructor.
Qed.

Lemma existsb_filter (A : Type) (p : A -> bool) (l : list A) :
  existsb p (filter p l) = existsb p l.
Proof.
  induction l as [|x l IH]; simpl; [reflexivity|].
  destruct (p x) eqn:E; simpl; [now rewrite E | exact IH].
Qed.

Lemma mapFilterBoolean_ext (A B : Type) (cb cb' : A -> option B) (arr : list A) :
  (forall x, cb x = cb' x) -> mapFilterBoolean cb arr = mapFilterBoolean cb' arr.
Proof.
  intros H. induction arr as [|x arr IH]; simpl; [reflexivity|].
  rewrite H, IH. reflexivity.
Qed.

Section EngineMore.

Variable K : Type.
Variable attrOf : K -> attr.
Variable attrs : list K.

(** The derived features are within the features they are computed from. *)
Lemma mapFilterBoolean_within (filters : K -> JsSet.t) (pt : option JsSet.t)
  (fs : list feature) :
  subFeatures (mapFilterBoolean (mapFeature attrOf attrs filters pt) fs) fs.
Proof.
  induction fs as [|f fs IH]; simpl; [constructor|].
  rewrite mapFeature_spec.
  destruct (existsb (keepBuilding attrOf attrs filters pt) (buildings f)).
  - apply subFeatures_keep; auto. simpl. apply subseq_filter_self.
  - now apply subFeatures_drop.
Qed.

(** Filtering what has been filtered changes nothing. *)
Lemma mapFilterBoolean_idem (filters : K -> JsSet.t) (pt : option JsSet.t)
  (fs : list feature) :
  mapFilterBoolean (mapFeature attrOf attrs filters pt)
    (mapFilterBoolean (mapFeature attrOf attrs filters pt) fs)
  = mapFilterBoolean (mapFeature attrOf attrs filters pt) fs.
Proof.
  induction fs as [|f fs IH]; simpl; [reflexivity|].
  rewrite mapFeature_spec.
  destruct (existsb (keepBuilding attrOf attrs filters pt) (buildings f)) eqn:E;
    [|exact IH].
  simpl. rewrite mapFeature_spec. simpl.
  rewrite existsb_filter, E, filter_idem, IH. reflexivity.
Qed.

(** A laxer building test, the tag sets of the period differing too. *)
Lemma mapFilterBoolean_laxer (filters1 filters2 : K -> JsSet.t)
  (pt1 pt2 : option JsSet.t) (fs : list feature) :
  (forall b, keepBuilding attrOf attrs filters1 pt1 b = true ->
             keepBuilding attrOf attrs filters2 pt2 b = true) ->
  subFeatures (mapFilterBoolean (mapFeature attrOf attrs filters1 pt1) fs)
              (mapFilterBoolean (mapFeature attrOf attrs filters2 pt2) fs).
Proof.
  intros Hk. induction fs as [|f fs IH]; simpl; [constructor|].
  rewrite !mapFeature_spec.
  destruct (existsb (keepBuilding attrOf attrs filters1 pt1) (buildings f)) eqn:E1.
  - assert (E2 : existsb (keepBuilding attrOf attrs filters2 pt2) (buildings f) = true).
    { apply existsb_exists in E1. destruct E1 as [b [Hb Hkb]].
      apply existsb_exists. exists b. auto. }
    rewrite E2. apply subFeatures_keep; simpl; auto.
    apply subseq_filter. auto.
  - destruct (existsb (keepBuilding attrOf attrs filters2 pt2) (buildings f));
      [now apply subFeatures_drop | exact IH].
Qed.

(** Without a period a building passes whenever it passes with one. *)
Lemma keepBuilding_no_period (filters : K -> JsSet.t) (pt : option JsSet.t)
  (b : building) :
  keepBuilding attrOf attrs filters pt b = true ->
  keepBuilding attrOf attrs filters None b = true.
Proof.
  unfold keepBuilding. destruct (attrLoop attrOf filters b attrs); auto.
Qed.

End EngineMore.

Lemma filteredDataWith_pt_v4 (d : dataset) (fs : SiteMapV4.filterState)
  (period : option string) (pt : option JsSet.t) :
  periodTagsOf period = Ok pt ->
  SiteMapV4.filteredDataWith (Some d) fs period =
  Ok {| features :=
          mapFilterBoolean
            (mapFeature (fun a => a) SiteMapV4.filterAttrs (SiteMapV4.lookup fs) pt)
            (features d) |}.
Proof.
  intros Hpt. unfold SiteMapV4.filteredDataWith, filteredDataOf. now rewrite Hpt.
Qed.

(** X1. The derived dataset is within the canonical dataset, in both
    components: no site and no building is added or moved, a site keeps
    its name and geometry, and its buildings are a subsequence of the
    buildings it has in the canonical dataset. *)
Theorem derived_within_canonical (d : dataset) (fs : SiteMap.filterState)
  (fs4 : SiteMapV4.filterState) (period : option string)
  (H : knownPeriod period) :
  (exists fd, SiteMap.filteredDataWith (Some d) fs period = Ok fd
              /\ subDataset fd d
              /\ forall f' b, In f' (features fd) -> In b (buildings f') ->
                   exists f, In f (features d) /\ site f = site f' /\ In b (buildings f))
  /\ (exists fd, SiteMapV4.filteredDataWith (Some d) fs4 period = Ok fd
                 /\ subDataset fd d
                 /\ forall f' b, In f' (features fd) -> In b (buildings f') ->
                      exists f, In f (features d) /\ site f = site f' /\ In b (buildings f)).
Proof.
  destruct (periodTagsOf_known H) as [pt [Hpt _]]. split.
  - eexists. split; [exact (@filteredDataWith_pt d fs period pt Hpt)|].
    assert (S : subFeatures
                  (mapFilterBoolean
                     (mapFeature SiteMap.attrOf SiteMap.filterAttrs (SiteMap.lookup fs) pt)
                     (features d)) (features d))
      by apply mapFilterBoolean_within.
    split; [exact S|]. cbn [features]. intros f' b. exact (subFeatures_In S f' b).
  - eexists. split; [exact (@filteredDataWith_pt_v4 d fs4 period pt Hpt)|].
    assert (S : subFeatures
                  (mapFilterBoolean
                     (mapFeature (fun a => a) SiteMapV4.filterAttrs
                                 (SiteMapV4.lookup fs4) pt)
                     (features d)) (features d))
      by apply mapFilterBoolean_within.
    split; [exact S|]. cbn [features]. intros f' b. exact (subFeatures_In S f' b).
Qed.

Lemma derived_within_canonical_witness :
  knownPeriod (Some "classical") /\
  exists fd, SiteMap.filteredDataWith (Some delphi) onlyDoric (Some "classical") = Ok fd
             /\ subDataset fd delphi.
Proof.
  assert (K : knownPeriod (Some "classical")).
  { right. eexists. split; [right; left; reflexivity | reflexivity]. }
  split; [exact K|].
  destruct (proj1 (derived_within_canonical delphi onlyDoric SiteMapV4.noFilters K))
    as [fd [H1 [H2 _]]].
  exists fd. split; assumption.
Defined.

(** X2. Filtering is idempotent: the derived dataset, taken as the
    dataset and filtered with the same selected sets and the same period,
    is returned unchanged. *)
Theorem refilter_unchanged (d fd : dataset) (fs : SiteMap.filterState)
  (period : option string)
  (H : SiteMap.filteredDataWith (Some d) fs period = Ok fd) :
  SiteMap.filteredDataWith (Some fd) fs period = Ok fd.
Proof.
  unfold SiteMap.filteredDataWith, filteredDataOf in *.
  destruct (periodTagsOf period) as [pt|e]; [|discriminate H].
  injection H as <-. cbn [features]. now rewrite mapFilterBoolean_idem.
Qed.

Lemma refilter_unchanged_witness :
  SiteMap.filteredDataWith (Some delphi) onlyDoric None
    = Ok {| features := [withBuildings {| site := "Delphi"; geometry := "Point";
                                          buildings := [B1; B2] |} [B1]] |}
  /\ SiteMap.filteredDataWith
       (Some {| features := [withBuildings {| site := "Delphi"; geometry := "Point";
                                              buildings := [B1; B2] |} [B1]] |})
       onlyDoric None
     = Ok {| features := [withBuildings {| site := "Delphi"; geometry := "Point";
                                           buildings := [B1; B2] |} [B1]] |}.
Proof.
  split; [reflexivity|].
  exact (@refilter_unchanged delphi _ onlyDoric None eq_refl).
Defined.

(** X3. Selecting a period can only narrow: for every segment of the
    table, the derived dataset with that period selected is within the
    derived dataset of the same selected sets with no period. *)
Theorem period_narrows (d : dataset) (fs : SiteMap.filterState) (seg : segment)
  (H : In seg timelineSegments) :
  exists fd fdP,
    SiteMap.filteredDataWith (Some d) fs None = Ok fd
    /\ SiteMap.filteredDataWith (Some d) fs (Some (seg_id seg)) = Ok fdP
    /\ subDataset fdP fd.
Proof.
  assert (K : knownPeriod (Some (seg_id seg))) by (right; now exists seg).
  destruct (periodTagsOf_known K) as [pt [Hpt _]].
  do 2 eexists. split; [reflexivity|].
  split; [exact (@filteredDataWith_pt d fs _ pt Hpt)|].
  unfold subDataset. cbn [features].
  apply mapFilterBoolean_laxer. intros b. apply keepBuilding_no_period.
Qed.

Lemma period_narrows_witness :
  In classicalSegment timelineSegments
  /\ exists fd fdP,
       SiteMap.filteredDataWith (Some delphi) onlyDoric None = Ok fd
       /\ SiteMap.filteredDataWith (Some delphi) onlyDoric (Some "classical") = Ok fdP
       /\ subDataset fdP fd.
Proof.
  assert (H : In classicalSegment timelineSegments) by (right; left; reflexivity).
  split; [exact H | exact (@period_narrows delphi onlyDoric classicalSegment H)].
Defined.

(** ** The derived dataset of [SiteMap_v4.js] *)

Lemma all_attrs (a : attr) : In a SiteMapV4.filterAttrs.
Proof. destruct a; simpl; auto. Qed.

(** X4. The retention rule of [SiteMap_v4.js], where the date set takes
    part: for a period that is none or of the table the derived dataset is
    computed; its sites are, one for one and in order, the sites with a
    kept building, each with the name and geometry of its canonical site
    and exactly the kept buildings of that site as its building list; and
    a building is kept iff each of its four attributes passes the test of
    its selected set (order, morphology, age and date) and the period test
    passes. *)
Theorem retention_rule_v4 (d : dataset) (fs : SiteMapV4.filterState)
  (period : option string) (H : knownPeriod period) :
  exists fd pt,
    SiteMapV4.filteredDataWith (Some d) fs period = Ok fd
    /\ Forall2 (fun f' f => siteWith f' f (filter (keepsV4 fs pt) (buildings f)))
               (features fd)
               (filter (fun f => existsb (keepsV4 fs pt) (buildings f)) (features d))
    /\ (forall b, keepsV4 fs pt b = true <-> retainedV4 fs period b)
    /\ (forall f' b, In f' (features fd) -> In b (buildings f') ->
          retainedV4 fs period b).
Proof.
  destruct (periodTagsOf_known H) as [pt [Hpt Hspec]].
  assert (Hkeep : forall b, keepsV4 fs pt b = true <-> retainedV4 fs period b).
  { intros b. unfold keepsV4, retainedV4. rewrite keepBuilding_true, (Hspec b).
    split; intros [H1 H2]; split; auto. intros a. apply H1, all_attrs. }
  assert (F2 : Forall2 (fun f' f => siteWith f' f (filter (keepsV4 fs pt) (buildings f)))
                 (mapFilterBoolean
                    (mapFeature (fun a => a) SiteMapV4.filterAttrs (SiteMapV4.lookup fs) pt)
                    (features d))
                 (filter (fun f => existsb (keepsV4 fs pt) (buildings f)) (features d))).
  { rewrite mapFilterBoolean_filter_map
      with (keep := fun f => existsb (keepsV4 fs pt) (buildings f))
           (rebuild := fun f => withBuildings f (filter (keepsV4 fs pt) (buildings f)))
      by (intros f; apply mapFeature_spec).
    apply Forall2_map_left. intros f. repeat split. }
  eexists. exists pt. split; [exact (@filteredDataWith_pt_v4 d fs period pt Hpt)|].
  cbn [features]. split; [exact F2|]. split; [exact Hkeep|].
  intros f' b Hin Hb. destruct (@Forall2_In_left _ _ _ _ _ f' F2 Hin) as [g [_ [_ [_ Hbs]]]].
  rewrite Hbs in Hb. apply filter_In in Hb. now apply Hkeep.
Qed.

Lemma retention_rule_v4_witness :
  knownPeriod None /\
  exists fd pt,
    SiteMapV4.filteredDataWith (Some delphi) SiteMapV4.noFilters None = Ok fd
    /\ Forall2 (fun f' f => siteWith f' f
                              (filter (keepsV4 SiteMapV4.noFilters pt) (buildings f)))
               (features fd)
               (filter (fun f => existsb (keepsV4 SiteMapV4.noFilters pt) (buildings f))
                       (features delphi))
    /\ (forall b, keepsV4 SiteMapV4.noFilters pt b = true
                  <-> retainedV4 SiteMapV4.noFilters None b)
    /\ (forall f' b, In f' (features fd) -> In b (buildings f') ->
          retainedV4 SiteMapV4.noFilters None b).
Proof.
  split; [left; reflexivity|].
  exact (retention_rule_v4 delphi SiteMapV4.noFilters (or_introl eq_refl)).
Defined.

(** In [SiteMap_v4.js] a selected date excludes the buildings that do not
    bear it; B3 bears the date, B1 bears none. *)
Example date_filter_v4 :
  SiteMapV4.filteredDataWith
    (Some {| features := [ {| site := "Delphi"; geometry := "Point";
                              buildings := [B1; B3] |} ] |})
    (SiteMapV4.toggleFilterIn Date "3rd c. BCE" SiteMapV4.noFilters) None
  = Ok {| features := [ {| site := "Delphi"; geometry := "Point";
                           buildings := [B3] |} ] |}.
Proof. reflexivity. Qed.

Lemma keeps_without_date (fs : SiteMapV4.filterState) (pt : option JsSet.t)
  (b : building) :
  SiteMapV4.dateSet fs = [] ->
  keepsV4 fs pt b = keeps (withoutDate fs) pt b.
Proof.
  intros Hd. unfold keepsV4, keeps, keepBuilding.
  replace (attrLoop (fun a => a) (SiteMapV4.lookup fs) b SiteMapV4.filterAttrs)
    with (attrLoop SiteMap.attrOf (SiteMap.lookup (withoutDate fs)) b SiteMap.filterAttrs);
    [reflexivity|].
  destruct fs as [o m a dt]. simpl in Hd. subst dt.
  unfold SiteMap.filterAttrs, SiteMapV4.filterAttrs. cbn [attrLoop].
  unfold attrFails. cbn. 
  repeat match goal with |- context [if ?c then _ else _] => destruct c end; reflexivity.
Qed.

(** X5. The two components agree when the date set of [SiteMap_v4.js] is
    empty: the derived dataset of [SiteMap_v4.js] is then the one the
    doc_id-keyed component computes from the other three sets, for every
    dataset and every period (for an unknown period both throw). *)
Theorem components_agree (d : option dataset) (fs : SiteMapV4.filterState)
  (period : option string) (H : SiteMapV4.dateSet fs = []) :
  SiteMapV4.filteredDataWith d fs period
  = SiteMap.filteredDataWith d (withoutDate fs) period.
Proof.
  unfold SiteMapV4.filteredDataWith, SiteMap.filteredDataWith, filteredDataOf.
  destruct d as [d|]; [|reflexivity].
  destruct (periodTagsOf period) as [pt|e]; [|reflexivity].
  do 2 f_equal. apply mapFilterBoolean_ext. intros f.
  rewrite !mapFeature_spec.
  assert (E : forall b,
             keepBuilding (fun a => a) SiteMapV4.filterAttrs (SiteMapV4.lookup fs) pt b
             = keepBuilding SiteMap.attrOf SiteMap.filterAttrs
                            (SiteMap.lookup (withoutDate fs)) pt b)
    by (intros b; now apply keeps_without_date).
  rewrite (filter_ext _ _ E).
  replace (existsb (keepBuilding (fun a => a) SiteMapV4.filterAttrs
                      (SiteMapV4.lookup fs) pt) (buildings f))
    with (existsb (keepBuilding SiteMap.attrOf SiteMap.filterAttrs
                     (SiteMap.lookup (withoutDate fs)) pt) (buildings f)).
  - reflexivity.
  - induction (buildings f) as [|b bs IH]; simpl; [reflexivity|]. now rewrite E, IH.
Qed.

Lemma components_agree_witness :
  SiteMapV4.dateSet (SiteMapV4.filters staleStateV4) = []
  /\ SiteMapV4.filteredDataWith (Some delphi) (SiteMapV4.filters staleStateV4) None
     = SiteMap.filteredDataWith (Some delphi)
         (withoutDate (SiteMapV4.filters staleStateV4)) None.
Proof.
  split; [reflexivity|].
  exact (@components_agree (Some delphi) (SiteMapV4.filters staleStateV4) None eq_refl).
Defined.

(** ** Further properties of the toggles *)

Lemma has_false_In (s : JsSet.t) (v : string) : JsSet.has s v = false <-> ~ In v s.
Proof.
  rewrite <- has_In. destruct (JsSet.has s v); split; intros H; congruence.
Qed.

Lemma NoDup_add (v : string) (s : JsSet.t) : NoDup s -> NoDup (JsSet.add v s).
Proof.
  intros H. unfold JsSet.add. destruct (JsSet.has s v) eqn:E; [assumption|].
  apply has_false_In in E. apply NoDup_app; [assumption | repeat constructor; auto |].
  intros x Hx [<- | []]. contradiction.
Qed.

Lemma NoDup_addAll (vs : list string) (s : JsSet.t) : NoDup s -> NoDup (addAll vs s).
Proof.
  unfold addAll. revert s. induction vs as [|v vs IH]; intros s H; simpl; [assumption|].
  apply IH. now apply NoDup_add.
Qed.

Lemma NoDup_of_list (l : list string) : NoDup (JsSet.of_list l).
Proof. apply (NoDup_addAll l). constructor. Qed.

(** A [Set] built from the members of a [Set] has them in the same order. *)
Lemma addAll_NoDup_app (l : list string) (s : JsSet.t) :
  NoDup (s ++ l) -> addAll l s = s ++ l.
Proof.
  unfold addAll. revert s. induction l as [|v l IH]; intros s H; simpl.
  - now rewrite app_nil_r.
  - assert (Hv : JsSet.has s v = false).
    { apply has_false_In. intros Hin. apply NoDup_remove_2 in H.
      apply H. apply in_or_app. now left. }
    unfold JsSet.add at 2. rewrite Hv.
    rewrite IH; rewrite <- app_assoc; [reflexivity | exact H].
Qed.

Lemma of_list_NoDup (l : list string) : NoDup l -> JsSet.of_list l = l.
Proof. intros H. exact (addAll_NoDup_app l [] H). Qed.

Lemma delete_absent (v : string) (s : JsSet.t) : ~ In v s -> JsSet.delete v s = s.
Proof.
  intros H. unfold JsSet.delete. apply filter_all.
  intros x Hx. apply negb_true_iff, String.eqb_neq. intros ->. contradiction.
Qed.

Lemma delete_added (v : string) (s : JsSet.t) :
  ~ In v s -> JsSet.delete v (s ++ [v]) = s.
Proof.
  intros H. unfold JsSet.delete. rewrite filter_app. simpl.
  rewrite String.eqb_refl. simpl. rewrite app_nil_r.
  now apply (delete_absent v s).
Qed.

Lemma assign_lookup (fs : SiteMap.filterState) (k : SiteMap.key) :
  SiteMap.assign fs k (SiteMap.lookup fs k) = fs.
Proof. now destruct fs, k. Qed.

Lemma assign_assign (fs : SiteMap.filterState) (k : SiteMap.key) (s s' : JsSet.t) :
  SiteMap.assign (SiteMap.assign fs k s) k s' = SiteMap.assign fs k s'.
Proof. now destruct k. Qed.

Lemma lookup_assign_same_v4 (fs : SiteMapV4.filterState) (k : attr) (s : JsSet.t) :
  SiteMapV4.lookup (SiteMapV4.assign fs k s) k = s.
Proof. now destruct k. Qed.

Lemma lookup_assign_other_v4 (fs : SiteMapV4.filterState) (k k' : attr) (s : JsSet.t) :
  k' <> k -> SiteMapV4.lookup (SiteMapV4.assign fs k s) k' = SiteMapV4.lookup fs k'.
Proof. destruct k, k'; intros H; try reflexivity; now contradiction H. Qed.

Lemma In_toggled_v4 (k : attr) (v x : string) (fs : SiteMapV4.filterState) :
  In x (SiteMapV4.lookup (SiteMapV4.toggleFilterIn k v fs) k) <->
  if JsSet.has (SiteMapV4.lookup fs k) v
  then In x (SiteMapV4.lookup fs k) /\ x <> v
  else x = v \/ In x (SiteMapV4.lookup fs k).
Proof.
  unfold SiteMapV4.toggleFilterIn, JsSet.to_list. cbv zeta.
  rewrite lookup_assign_same_v4.
  assert (E : JsSet.has (JsSet.of_list (SiteMapV4.lookup fs k)) v
              = JsSet.has (SiteMapV4.lookup fs k) v).
  { apply eq_true_iff_eq. rewrite !has_In. apply In_of_list. }
  rewrite E. destruct (JsSet.has (SiteMapV4.lookup fs k) v);
    rewrite lookup_assign_same_v4.
  - rewrite In_delete, In_of_list. reflexivity.
  - rewrite In_add, In_of_list. reflexivity.
Qed.

Lemma has_eq_of_In (s s' : JsSet.t) (x x' : string) :
  (In x s <-> In x' s') -> JsSet.has s x = JsSet.has s' x'.
Proof. intros H. apply eq_true_iff_eq. now rewrite !has_In. Qed.

Lemma has_toggled (k : SiteMap.key) (v : string) (fs : SiteMap.filterState) :
  JsSet.has (SiteMap.lookup (SiteMap.toggleFilterIn k v fs) k) v
  = negb (JsSet.has (SiteMap.lookup fs k) v).
Proof.
  apply eq_true_iff_eq. rewrite has_In, In_toggled.
  destruct (JsSet.has (SiteMap.lookup fs k) v); simpl; intuition congruence.
Qed.

(** X6. A toggle flips the membership of its value in the set of its key
    and nothing else: every other value keeps its membership in that set,
    the sets of the other keys are untouched, and the new set has no
    repeated member.  This holds for the updater of both components. *)
Theorem toggle_flips_one_value :
  (forall (k : SiteMap.key) (v : string) (fs : SiteMap.filterState),
      let fs' := SiteMap.toggleFilterIn k v fs in
      JsSet.has (SiteMap.lookup fs' k) v = negb (JsSet.has (SiteMap.lookup fs k) v)
      /\ (forall x, x <> v ->
            JsSet.has (SiteMap.lookup fs' k) x = JsSet.has (SiteMap.lookup fs k) x)
      /\ (forall k', k' <> k -> SiteMap.lookup fs' k' = SiteMap.lookup fs k')
      /\ NoDup (SiteMap.lookup fs' k))
  /\ (forall (k : attr) (v : string) (fs : SiteMapV4.filterState),
      let fs' := SiteMapV4.toggleFilterIn k v fs in
      JsSet.has (SiteMapV4.lookup fs' k) v = negb (JsSet.has (SiteMapV4.lookup fs k) v)
      /\ (forall x, x <> v ->
            JsSet.has (SiteMapV4.lookup fs' k) x = JsSet.has (SiteMapV4.lookup fs k) x)
      /\ (forall k', k' <> k -> SiteMapV4.lookup fs' k' = SiteMapV4.lookup fs k')
      /\ NoDup (SiteMapV4.lookup fs' k)).
Proof.
  split; intros k v fs; cbv zeta.
  - pose proof (fun x => In_toggled k v x fs) as Hin.
    split; [|split; [|split]].
    + apply has_toggled.
    + intros x Hx. apply eq_true_iff_eq. rewrite !has_In, Hin.
      destruct (JsSet.has (SiteMap.lookup fs k) v); intuition congruence.
    + intros k' Hne. now apply toggle_other.
    + clear Hin. unfold SiteMap.toggleFilterIn. cbv zeta. rewrite lookup_assign_same.
      destruct (JsSet.has (JsSet.of_list (JsSet.to_list (SiteMap.lookup fs k))) v).
      * unfold JsSet.delete. apply NoDup_filter, NoDup_of_list.
      * apply NoDup_add, NoDup_of_list.
  - pose proof (fun x => In_toggled_v4 k v x fs) as Hin.
    split; [|split; [|split]].
    + apply eq_true_iff_eq. rewrite has_In, Hin.
      destruct (JsSet.has (SiteMapV4.lookup fs k) v); simpl; intuition congruence.
    + intros x Hx. apply eq_true_iff_eq. rewrite !has_In, Hin.
      destruct (JsSet.has (SiteMapV4.lookup fs k) v); intuition congruence.
    + intros k' Hne. clear Hin. unfold SiteMapV4.toggleFilterIn. cbv zeta.
      destruct (JsSet.has
                  (SiteMapV4.lookup
                     (SiteMapV4.assign fs k
                        (JsSet.of_list (JsSet.to_list (SiteMapV4.lookup fs k)))) k) v);
        now rewrite !lookup_assign_other_v4.
    + clear Hin. unfold SiteMapV4.toggleFilterIn. cbv zeta.
      destruct (JsSet.has
                  (SiteMapV4.lookup
                     (SiteMapV4.assign fs k
                        (JsSet.of_list (JsSet.to_list (SiteMapV4.lookup fs k)))) k) v);
        rewrite !lookup_assign_same_v4.
      * unfold JsSet.delete. apply NoDup_filter, NoDup_of_list.
      * apply NoDup_add, NoDup_of_list.
Qed.

(** X7. Toggling the same value twice restores the selection: the set of
    the key has the same members as before and the other sets are
    untouched; when the value was not selected and the set has no repeated
    member, the filter state is the same again, order of members
    included. *)
Theorem toggle_twice_restores (k : SiteMap.key) (v : string) (fs : SiteMap.filterState) :
  let fs'' := SiteMap.toggleFilterIn k v (SiteMap.toggleFilterIn k v fs) in
  (forall x, In x (SiteMap.lookup fs'' k) <-> In x (SiteMap.lookup fs k))
  /\ (forall k', k' <> k -> SiteMap.lookup fs'' k' = SiteMap.lookup fs k')
  /\ (NoDup (SiteMap.lookup fs k) -> JsSet.has (SiteMap.lookup fs k) v = false ->
      fs'' = fs).
Proof.
  cbv zeta. split; [|split].
  - intros x.
    pose proof (In_toggled k v x fs) as H1.
    pose proof (In_toggled k v x (SiteMap.toggleFilterIn k v fs)) as H2.
    rewrite has_toggled in H2.
    destruct (JsSet.has (SiteMap.lookup fs k) v) eqn:E; simpl in H2; rewrite H2, H1.
    + apply has_In in E. split; [intros [-> | [H _]]; assumption|].
      intros H. destruct (String.eqb_spec x v); [now left | right; now split].
    + apply has_false_In in E. split; [intros [[-> | H] Hne]; [contradiction | assumption]|].
      intros H. split; [now right | intros ->; contradiction].
  - intros k' Hne. now rewrite !toggle_other.
  - intros Hnd Hhas.
    assert (Hv : ~ In v (SiteMap.lookup fs k)) by now apply has_false_In.
    assert (E1 : SiteMap.toggleFilterIn k v fs
                 = SiteMap.assign fs k (SiteMap.lookup fs k ++ [v])).
    { unfold SiteMap.toggleFilterIn, JsSet.to_list. cbv zeta.
      rewrite (of_list_NoDup Hnd), Hhas. unfold JsSet.add. now rewrite Hhas. }
    rewrite E1. unfold SiteMap.toggleFilterIn, JsSet.to_list. cbv zeta.
    rewrite lookup_assign_same.
    assert (Hnd' : NoDup (SiteMap.lookup fs k ++ [v])).
    { apply NoDup_app; [assumption | repeat constructor; auto |].
      intros x Hx [<- | []]. contradiction. }
    rewrite (of_list_NoDup Hnd').
    assert (Hin : JsSet.has (SiteMap.lookup fs k ++ [v]) v = true).
    { apply has_In, in_or_app. right. now left. }
    rewrite Hin, (@delete_added v _ Hv), assign_assign. apply assign_lookup.
Qed.

Lemma toggle_twice_restores_witness :
  NoDup (SiteMap.lookup onlyDoric SiteMap.KOrder)
  /\ JsSet.has (SiteMap.lookup onlyDoric SiteMap.KOrder) "Ionic" = false
  /\ SiteMap.toggleFilterIn SiteMap.KOrder "Ionic"
       (SiteMap.toggleFilterIn SiteMap.KOrder "Ionic" onlyDoric) = onlyDoric.
Proof.
  assert (H : NoDup (SiteMap.lookup onlyDoric SiteMap.KOrder)).
  { repeat constructor. simpl. tauto. }
  split; [exact H|]. split; [reflexivity|].
  exact (proj2 (proj2 (toggle_twice_restores SiteMap.KOrder "Ionic" onlyDoric))
           H eq_refl).
Defined.

(** When the value was selected, the two toggles move it to the end. *)
Example toggle_twice_moves_last :
  SiteMap.orderSet
    (SiteMap.toggleFilterIn SiteMap.KOrder "Doric"
       (SiteMap.toggleFilterIn SiteMap.KOrder "Doric"
          {| SiteMap.orderSet := ["Doric"; "Ionic"]; SiteMap.morphologySet := [];
             SiteMap.ageSet := [] |}))
  = ["Ionic"; "Doric"].
Proof. reflexivity. Qed.

(** ** The states the component reaches *)

Lemma knownPeriod_segment (seg : segment) :
  In seg timelineSegments -> knownPeriod (Some (seg_id seg)).
Proof. intros H. right. now exists seg. Qed.

Lemma selectBuilding_cases (fd : dataset) (docId : string) (st : SiteMap.state) :
  SiteMap.selectBuilding fd docId st = st
  \/ SiteMap.selectBuilding fd docId st = SiteMap.setSelectedBuildingDocId (Some docId) st.
Proof.
  unfold SiteMap.selectBuilding. cbv zeta.
  destruct (JsSet.has (SiteMap.visibleDocIds fd st) docId); auto.
Qed.

Lemma clearIfFilteredOut_cases (fd : dataset) (st : SiteMap.state) :
  SiteMap.clearIfFilteredOut fd st = st
  \/ SiteMap.clearIfFilteredOut fd st = SiteMap.setSelectedBuildingDocId None st.
Proof.
  unfold SiteMap.clearIfFilteredOut.
  destruct (SiteMap.selectedBuildingDocId st) as [sel|]; [|now left].
  destruct (truthy (Some sel)); [|now left]. cbv zeta.
  destruct (negb _); auto.
Qed.

(** What every reachable state satisfies: the selected period and the
    hovered segment are none or of the table. *)
Lemma reachable_periods (st : SiteMap.state) :
  reachable st ->
  knownPeriod (SiteMap.selectedPeriod st) /\ knownPeriod (SiteMap.hoveredSegment st).
Proof.
  induction 1 as [ | d st _ IH _ | name st _ IH | st _ IH | k v st _ IH | st _ IH
                   | k st _ IH | seg st _ IH Hseg | seg st _ IH Hseg | st _ IH
                   | fd docId st _ IH _ | st _ IH | st st' _ IH Hre ];
    try exact IH; try destruct IH as [IH1 IH2].
  - split; now left.
  - split; [now left | exact IH2].
  - split; [|exact IH2]. unfold SiteMap.clickSegment. cbv zeta. simpl.
    destruct (match SiteMap.selectedPeriod st with
              | Some p => String.eqb p (seg_id seg)
              | None => false
              end); [now left | now apply knownPeriod_segment].
  - split; [exact IH1 | now apply knownPeriod_segment].
  - split; [exact IH1 | now left].
  - destruct (selectBuilding_cases fd docId st) as [-> | ->]; now split.
  - unfold SiteMap.recompute in Hre.
    destruct (SiteMap.filteredData st) as [fd|e]; [|discriminate Hre].
    injection Hre as <-.
    destruct (clearIfFilteredOut_cases fd st) as [-> | ->]; now split.
Qed.

Lemma filteredDataWith_returns (d : option dataset) (fs : SiteMap.filterState)
  (period : option string) :
  knownPeriod period -> exists fd, SiteMap.filteredDataWith d fs period = Ok fd.
Proof.
  intros H. destruct (periodTagsOf_known H) as [pt [Hpt _]].
  unfold SiteMap.filteredDataWith, filteredDataOf.
  destruct d as [d|]; [rewrite Hpt|]; eexists; reflexivity.
Qed.

(** X8. No reachable state throws: in every state the component reaches
    from its initial state through the completion of the fetch, its
    handlers and its effect, the derived dataset is computed and the
    effect runs, so the TypeError of an unknown period cannot occur. *)
Theorem reachable_never_throws (st : SiteMap.state) (H : reachable st) :
  knownPeriod (SiteMap.selectedPeriod st)
  /\ (exists fd, SiteMap.filteredData st = Ok fd)
  /\ (exists st', SiteMap.recompute st = Ok st').
Proof.
  destruct (reachable_periods H) as [Hp _].
  split; [exact Hp|].
  destruct (filteredDataWith_returns (SiteMap.data st) (SiteMap.filters st) Hp)
    as [fd Hfd].
  split; [now exists fd|].
  unfold SiteMap.recompute, SiteMap.filteredData. rewrite Hfd. eexists; reflexivity.
Qed.

Lemma reachable_never_throws_witness :
  reachable (SiteMap.toggleFilter SiteMap.KOrder "Doric"
               (SiteMap.clickSegment classicalSegment
                  (SiteMap.setData (Some delphi) SiteMap.initialState)))
  /\ exists fd,
       SiteMap.filteredData
         (SiteMap.toggleFilter SiteMap.KOrder "Doric"
            (SiteMap.clickSegment classicalSegment
               (SiteMap.setData (Some delphi) SiteMap.initialState))) = Ok fd.
Proof.
  assert (R : reachable (SiteMap.toggleFilter SiteMap.KOrder "Doric"
                           (SiteMap.clickSegment classicalSegment
                              (SiteMap.setData (Some delphi) SiteMap.initialState)))).
  { apply reach_toggleFilter, reach_clickSegment;
      [apply reach_load; [apply reach_initial | reflexivity]
      | right; left; reflexivity]. }
  split; [exact R | exact (proj1 (proj2 (reachable_never_throws R)))].
Defined.

(** X9. The tooltip segment in a reachable state: [displayedSeg] is the
    hovered segment while a segment is hovered, else the segment of the
    selected period, else nothing; it is always a segment of the table. *)
Theorem displayed_segment (st : SiteMap.state) (H : reachable st) :
  match SiteMap.hoveredSegment st, SiteMap.selectedPeriod st with
  | Some h, _ =>
      exists seg, SiteMap.displayedSeg st = Some seg
                  /\ In seg timelineSegments /\ seg_id seg = h
  | None, Some p =>
      exists seg, SiteMap.displayedSeg st = Some seg
                  /\ In seg timelineSegments /\ seg_id seg = p
  | None, None => SiteMap.displayedSeg st = None
  end.
Proof.
  destruct (reachable_periods H) as [Hp Hh]. unfold SiteMap.displayedSeg.
  destruct (SiteMap.hoveredSegment st) as [h|].
  - destruct Hh as [Hh | [seg [Hin Hh]]]; [discriminate|]. injection Hh as ->.
    cbv zeta. rewrite (seg_id_nonempty Hin). cbv iota beta.
    rewrite (seg_id_nonempty Hin), (findSegment_known Hin).
    exists seg. repeat split; auto.
  - cbn [truthy]. cbv zeta iota beta.
    destruct (SiteMap.selectedPeriod st) as [p|]; [|reflexivity].
    destruct Hp as [Hp | [seg [Hin Hp]]]; [discriminate|]. injection Hp as ->.
    rewrite (seg_id_nonempty Hin), (findSegment_known Hin).
    exists seg. repeat split; auto.
Qed.

Lemma displayed_segment_witness :
  reachable (SiteMap.setHoveredSegment (Some (seg_id classicalSegment))
               SiteMap.initialState)
  /\ exists seg,
       SiteMap.displayedSeg
         (SiteMap.setHoveredSegment (Some (seg_id classicalSegment))
            SiteMap.initialState) = Some seg
       /\ In seg timelineSegments /\ seg_id seg = "classical".
Proof.
  assert (R : reachable (SiteMap.setHoveredSegment (Some (seg_id classicalSegment))
                           SiteMap.initialState)).
  { apply reach_hover; [apply reach_initial | right; left; reflexivity]. }
  split; [exact R | exact (displayed_segment R)].
Defined.

(** ** Further properties of the selection *)

Lemma exists_building_with (key : building -> string) (sel : string) (fs : list feature) :
  existsb (fun f => existsb (fun b => String.eqb (key b) sel) (buildings f)) fs = true ->
  exists f b, In f fs /\ In b (buildings f) /\ key b = sel.
Proof.
  intros E. apply existsb_exists in E. destruct E as [f [Hf E]].
  apply existsb_exists in E. destruct E as [b [Hb E]].
  apply String.eqb_eq in E. now exists f, b.
Qed.

(** X10. What the effect establishes, and that one pass is enough: after
    a recomputation that returns, the derived dataset is the same, the
    building selection is the one before or none, every other cell is as
    before, a selection that is left with a non-empty key is the doc_id
    of a building of the derived dataset, and a second run of the effect
    changes nothing. *)
Theorem effect_settles (st : SiteMap.state) (fd : dataset)
  (H : SiteMap.filteredData st = Ok fd) :
  exists st',
    SiteMap.recompute st = Ok st'
    /\ SiteMap.filteredData st' = Ok fd
    /\ SiteMap.recompute st' = Ok st'
    /\ (SiteMap.selectedBuildingDocId st' = SiteMap.selectedBuildingDocId st
        \/ SiteMap.selectedBuildingDocId st' = None)
    /\ SiteMap.selectedSite st' = SiteMap.selectedSite st
    /\ SiteMap.filters st' = SiteMap.filters st
    /\ SiteMap.selectedPeriod st' = SiteMap.selectedPeriod st
    /\ (forall sel, SiteMap.selectedBuildingDocId st' = Some sel -> sel <> "" ->
          exists f b, In f (features fd) /\ In b (buildings f) /\ doc_id b = sel).
Proof.
  exists (SiteMap.clearIfFilteredOut fd st).
  assert (Hre : SiteMap.recompute st = Ok (SiteMap.clearIfFilteredOut fd st))
    by (unfold SiteMap.recompute; now rewrite H).
  split; [exact Hre|].
  unfold SiteMap.recompute, SiteMap.filteredData in *.
  unfold SiteMap.clearIfFilteredOut.
  destruct (SiteMap.selectedBuildingDocId st) as [sel|] eqn:Hsel.
  - destruct (truthy (Some sel)) eqn:Htr.
    + cbv zeta.
      destruct (existsb (fun f => existsb (fun b => String.eqb (doc_id b) sel)
                                          (buildings f)) (features fd)) eqn:E.
      * cbn [negb]. rewrite H. unfold SiteMap.clearIfFilteredOut.
        rewrite Hsel, Htr. cbv zeta. rewrite E. cbn [negb].
        repeat split; auto.
        intros sel' [= <-] _. now apply (exists_building_with doc_id).
      * cbn [negb]. cbn. rewrite H. repeat split; auto. discriminate.
    + rewrite H. unfold SiteMap.clearIfFilteredOut. rewrite Hsel, Htr.
      repeat split; auto.
      intros sel' [= <-] Hne. simpl in Htr.
      apply negb_false_iff, String.eqb_eq in Htr. contradiction.
  - rewrite H. unfold SiteMap.clearIfFilteredOut. rewrite Hsel.
    repeat split; auto. discriminate.
Qed.

Lemma effect_settles_witness :
  SiteMap.filteredData staleState
    = Ok {| features := [withBuildings {| site := "Delphi"; geometry := "Point";
                                          buildings := [B1; B2] |} [B1]] |}
  /\ exists st',
       SiteMap.recompute staleState = Ok st'
       /\ SiteMap.recompute st' = Ok st'
       /\ SiteMap.selectedSite st' = Some "Delphi".
Proof.
  split; [reflexivity|].
  destruct (@effect_settles staleState _ eq_refl)
    as [st' [H1 [_ [H3 [_ [H5 _]]]]]].
  exists st'. repeat split; assumption.
Defined.

(** X11. Selecting a visible building is stable: when the key of a list
    entry is visible, the handler selects it, and the effect that follows
    leaves the selection in place. *)
Theorem visible_selection_stays (st : SiteMap.state) (fd : dataset) (docId : string)
  (H : SiteMap.filteredData st = Ok fd)
  (V : JsSet.has (SiteMap.visibleDocIds fd st) docId = true) :
  SiteMap.selectedBuildingDocId (SiteMap.selectBuilding fd docId st) = Some docId
  /\ SiteMap.recompute (SiteMap.selectBuilding fd docId st)
     = Ok (SiteMap.selectBuilding fd docId st).
Proof.
  pose proof V as V'. apply visible_key in V'. destruct V' as [f [b [Hf [Hb He]]]].
  apply find_In in Hf. destruct Hf as [Hin _].
  unfold SiteMap.selectBuilding. cbv zeta. rewrite V. split; [reflexivity|].
  apply (@selection_kept _ fd f b); auto.
  simpl. now rewrite He.
Qed.

Lemma visible_selection_stays_witness :
  SiteMap.recompute
    (SiteMap.selectBuilding
       {| features := [withBuildings {| site := "Delphi"; geometry := "Point";
                                        buildings := [B1; B2] |} [B1]] |}
       "B1" (SiteMap.back staleState))
  = Ok (SiteMap.selectBuilding
          {| features := [withBuildings {| site := "Delphi"; geometry := "Point";
                                           buildings := [B1; B2] |} [B1]] |}
          "B1" (SiteMap.back staleState)).
Proof.
  exact (proj2 (@visible_selection_stays (SiteMap.back staleState) _ "B1"
                  eq_refl eq_refl)).
Defined.

Lemma find_siteIs_none (fs : list feature) : find (siteIs None) fs = None.
Proof. induction fs as [|f fs IH]; simpl; [reflexivity | exact IH]. Qed.

(** X12. Without a selected site nothing can be selected: in a state
    whose selected site is none, as the initial state and every state
    left by [exitSite], the panel has no site, no building and no list
    entry, and the handler of a list entry does nothing, whatever the
    derived dataset and the key. *)
Theorem no_site_no_selection (st : SiteMap.state) (d fd : dataset) (docId : string)
  (H : SiteMap.selectedSite st = None) :
  SiteMap.siteFeat fd st = None
  /\ SiteMap.buildingObj fd st = None
  /\ SiteMap.listEntries d fd st = []
  /\ SiteMap.selectBuilding fd docId st = st
  /\ SiteMap.selectedSite (SiteMap.exitSite st) = None
  /\ SiteMap.selectedBuildingDocId (SiteMap.exitSite st) = None.
Proof.
  assert (F : SiteMap.siteFeat fd st = None)
    by (unfold SiteMap.siteFeat; rewrite H; apply find_siteIs_none).
  split; [exact F|].
  split; [unfold SiteMap.buildingObj; now rewrite F|].
  split; [unfold SiteMap.listEntries; now rewrite F|].
  split; [|split; reflexivity].
  unfold SiteMap.selectBuilding, SiteMap.visibleDocIds. cbv zeta.
  unfold SiteMap.siteFeat in F. now rewrite F.
Qed.

Lemma no_site_no_selection_witness :
  SiteMap.selectedSite (SiteMap.exitSite staleState) = None
  /\ SiteMap.selectBuilding delphi "B1" (SiteMap.exitSite staleState)
     = SiteMap.exitSite staleState.
Proof.
  split; [reflexivity|].
  destruct (@no_site_no_selection (SiteMap.exitSite staleState) delphi delphi "B1"
              eq_refl) as [_ [_ [_ [H _]]]].
  exact H.
Defined.

(** X13. Two clicks on a timeline segment restore the state when no
    period or that segment was selected; after one click on a segment
    that was not selected the period is that segment's, and after one
    click on the selected segment it is none. *)
Theorem click_segment_twice (seg : segment) (st : SiteMap.state)
  (H : SiteMap.selectedPeriod st = None
       \/ SiteMap.selectedPeriod st = Some (seg_id seg)) :
  SiteMap.clickSegment seg (SiteMap.clickSegment seg st) = st
  /\ SiteMap.selectedPeriod (SiteMap.clickSegment seg st)
     = match SiteMap.selectedPeriod st with
       | None => Some (seg_id seg)
       | Some _ => None
       end.
Proof.
  destruct st as [d s b p h f o]. simpl in H.
  unfold SiteMap.clickSegment, SiteMap.setSelectedPeriod. simpl.
  destruct H as [-> | ->]; simpl; rewrite String.eqb_refl; simpl;
    rewrite ?String.eqb_refl; split; reflexivity.
Qed.

Lemma click_segment_twice_witness :
  SiteMap.selectedPeriod staleState = None
  /\ SiteMap.clickSegment classicalSegment
       (SiteMap.clickSegment classicalSegment staleState) = staleState.
Proof.
  split; [reflexivity|].
  exact (proj1 (@click_segment_twice classicalSegment staleState (or_introl eq_refl))).
Defined.

(** ** The list of the side panel *)

Lemma NoDup_map_inj (A B : Type) (g : A -> B) (l : list A) (x y : A) :
  NoDup (map g l) -> In x l -> In y l -> g x = g y -> x = y.
Proof.
  induction l as [|a l IH]; simpl; intros Hnd Hx Hy E; [contradiction|].
  inversion Hnd as [|? ? Hna Hnd']; subst.
  destruct Hx as [-> | Hx], Hy as [-> | Hy]; auto.
  - exfalso. apply Hna. rewrite E. now apply in_map.
  - exfalso. apply Hna. rewrite <- E. now apply in_map.
Qed.

(** With unique site names, [find] by name returns the site of that name. *)
Lemma find_site_unique (fs : list feature) (f : feature) :
  NoDup (map site fs) -> In f fs ->
  find (siteIs (Some (site f))) fs = Some f.
Proof.
  induction fs as [|g fs IH]; simpl; intros Hnd Hin; [contradiction|].
  inversion Hnd as [|? ? Hna Hnd']; subst.
  destruct (String.eqb_spec (site g) (site f)) as [E | E].
  - destruct Hin as [-> | Hin]; [reflexivity|].
    exfalso. apply Hna. rewrite E. now apply in_map.
  - destruct Hin as [-> | Hin]; [now contradiction E | now apply IH].
Qed.

Lemma find_site_absent (fs : list feature) (name : string) (keep : building -> bool) :
  ~ In name (map site fs) ->
  find (siteIs (Some name))
       (map (fun g => withBuildings g (filter keep (buildings g)))
            (filter (fun g => existsb keep (buildings g)) fs))
  = None.
Proof.
  induction fs as [|g fs IH]; simpl; intros Hna; [reflexivity|].
  assert (Hg : site g <> name) by (intros Eg; apply Hna; now left).
  assert (Hna' : ~ In name (map site fs)) by (intros Hi; apply Hna; now right).
  destruct (existsb keep (buildings g)); simpl.
  - apply String.eqb_neq in Hg. rewrite Hg. now apply IH.
  - now apply IH.
Qed.

(** With unique site names, the derived site of that name is the rebuilt
    site when it keeps a building, and is missing when it keeps none. *)
Lemma find_site_derived (fs : list feature) (f : feature) (keep : building -> bool) :
  NoDup (map site fs) -> In f fs ->
  find (siteIs (Some (site f)))
       (map (fun g => withBuildings g (filter keep (buildings g)))
            (filter (fun g => existsb keep (buildings g)) fs))
  = if existsb keep (buildings f)
    then Some (withBuildings f (filter keep (buildings f)))
    else None.
Proof.
  induction fs as [|g fs IH]; simpl; intros Hnd Hin; [contradiction|].
  inversion Hnd as [|? ? Hna Hnd']; subst.
  destruct Hin as [-> | Hin].
  - destruct (existsb keep (buildings f)) eqn:E; simpl.
    + now rewrite String.eqb_refl.
    + (* the site keeps nothing, and no later site bears its name *)
      now apply find_site_absent.
  - assert (Hg : site g <> site f).
    { intros Eg. apply Hna. rewrite Eg. now apply in_map. }
    destruct (existsb keep (buildings g)); simpl.
    + apply String.eqb_neq in Hg. rewrite Hg. now apply IH.
    + now apply IH.
Qed.

(** X14. Which list entries are enabled.  With the dataset loaded, site
    names unique, and the selected site [f] of a non-empty name having
    buildings of unique doc_ids: the list shows the buildings of [f] in
    the canonical dataset, the entry of a building is enabled exactly when
    the building passes the filters, and the panel has the site (rebuilt
    with its passing buildings) exactly when one of them passes. *)
Theorem enabled_entries (st : SiteMap.state) (d : dataset) (f : feature)
  (Hd : SiteMap.data st = Some d)
  (Hp : knownPeriod (SiteMap.selectedPeriod st))
  (Hs : SiteMap.selectedSite st = Some (site f))
  (Hn : site f <> "")
  (Hf : In f (features d))
  (Usites : NoDup (map site (features d)))
  (Uids : NoDup (map doc_id (buildings f))) :
  exists fd pt,
    SiteMap.filteredData st = Ok fd
    /\ periodTagsOf (SiteMap.selectedPeriod st) = Ok pt
    /\ SiteMap.originalBuildings d st = buildings f
    /\ (forall b, In b (buildings f) ->
          JsSet.has (SiteMap.visibleDocIds fd st) (doc_id b)
          = keeps (SiteMap.filters st) pt b)
    /\ SiteMap.siteFeat fd st
       = if existsb (keeps (SiteMap.filters st) pt) (buildings f)
         then Some (withBuildings f (filter (keeps (SiteMap.filters st) pt) (buildings f)))
         else None.
Proof.
  destruct (@filteredDataWith_known d (SiteMap.filters st) _ Hp) as [pt [Hpt [Hfd _]]].
  eexists. exists pt.
  split; [unfold SiteMap.filteredData; rewrite Hd; exact Hfd|].
  split; [exact Hpt|].
  assert (Hsite : SiteMap.siteFeat
                    {| features :=
                         map (fun g => withBuildings g
                                         (filter (keeps (SiteMap.filters st) pt) (buildings g)))
                             (filter (fun g => existsb (keeps (SiteMap.filters st) pt)
                                                       (buildings g)) (features d)) |} st
                  = if existsb (keeps (SiteMap.filters st) pt) (buildings f)
                    then Some (withBuildings f
                                 (filter (keeps (SiteMap.filters st) pt) (buildings f)))
                    else None).
  { unfold SiteMap.siteFeat. rewrite Hs. cbn [features].
    now apply find_site_derived. }
  split; [|split; [|exact Hsite]].
  - unfold SiteMap.originalBuildings. rewrite Hs.
    assert (T : truthy (Some (site f)) = true)
      by (simpl; now apply negb_true_iff, String.eqb_neq).
    rewrite T. now rewrite find_site_unique.
  - intros b Hb. unfold SiteMap.visibleDocIds.
    unfold SiteMap.siteFeat in Hsite. rewrite Hsite.
    apply eq_true_iff_eq. rewrite has_In, In_of_list.
    destruct (existsb (keeps (SiteMap.filters st) pt) (buildings f)) eqn:E.
    + cbn [buildings withBuildings]. rewrite in_map_iff. split.
      * intros [b' [He Hb']]. apply filter_In in Hb'. destruct Hb' as [Hb' Hk].
        now rewrite <- (NoDup_map_inj doc_id (buildings f) b' b Uids Hb' Hb He).
      * intros Hk. exists b. split; [reflexivity | now apply filter_In].
    + split; [contradiction|]. intros Hk.
      assert (F : existsb (keeps (SiteMap.filters st) pt) (buildings f) = true)
        by (apply existsb_exists; now exists b).
      congruence.
Qed.

Lemma enabled_entries_witness :
  exists fd pt,
    SiteMap.filteredData staleState = Ok fd
    /\ periodTagsOf (SiteMap.selectedPeriod staleState) = Ok pt
    /\ SiteMap.originalBuildings delphi staleState = [B1; B2]
    /\ (forall b, In b [B1; B2] ->
          JsSet.has (SiteMap.visibleDocIds fd staleState) (doc_id b)
          = keeps (SiteMap.filters staleState) pt b)
    /\ SiteMap.siteFeat fd staleState
       = if existsb (keeps (SiteMap.filters staleState) pt) [B1; B2]
         then Some (withBuildings
                      {| site := "Delphi"; geometry := "Point"; buildings := [B1; B2] |}
                      (filter (keeps (SiteMap.filters staleState) pt) [B1; B2]))
         else None.
Proof.
  refine (@enabled_entries staleState delphi
            {| site := "Delphi"; geometry := "Point"; buildings := [B1; B2] |}
            eq_refl (or_introl eq_refl) eq_refl _ (or_introl eq_refl) _ _).
  - discriminate.
  - repeat constructor. simpl. tauto.
  - repeat constructor; simpl; intuition discriminate.
Defined.

(** A site whose name is the empty string opens the panel without a list:
    [originalBuildings] tests the name for truthiness, [siteFeat] does not. *)
Example empty_site_name :
  let d := {| features := [ {| site := ""; geometry := "Point"; buildings := [B1] |} ] |} in
  let st := SiteMap.clickSite "" (SiteMap.setData (Some d) SiteMap.initialState) in
  SiteMap.siteFeat d st = Some {| site := ""; geometry := "Point"; buildings := [B1] |}
  /\ SiteMap.listEntries d d st = [].
Proof. split; reflexivity. Qed.

(** ** Further properties of the option lists *)

(** Each of the three sets is filled from one member of the buildings. *)
Lemma collect_proj (proj : optionSets -> JsSet.t) (field : building -> list string) :
  (forall acc b, proj (collectBuilding acc b) = addAll (field b) (proj acc)) ->
  forall fs acc x,
    (In x (proj (fold_left (fun acc f => fold_left collectBuilding (buildings f) acc)
                           fs acc)) <->
     (exists f b, In f fs /\ In b (buildings f) /\ In x (field b)) \/ In x (proj acc))
    /\ (NoDup (proj acc) ->
        NoDup (proj (fold_left (fun acc f => fold_left collectBuilding (buildings f) acc)
                               fs acc))).
Proof.
  intros Hp.
  assert (B : forall bs acc x,
             (In x (proj (fold_left collectBuilding bs acc)) <->
              (exists b, In b bs /\ In x (field b)) \/ In x (proj acc))
             /\ (NoDup (proj acc) -> NoDup (proj (fold_left collectBuilding bs acc)))).
  { induction bs as [|b bs IH]; intros acc x; simpl.
    - split; [|auto]. split; [now right | intros [[b [[] _]] | H]; assumption].
    - destruct (IH (collectBuilding acc b) x) as [IH1 IH2]. split.
      + rewrite IH1, Hp, In_addAll. split.
        * intros [[b' [Hb Hx]] | [Hx | Hx]];
            [left; exists b' | left; exists b | right]; auto.
        * intros [[b' [[<- | Hb] Hx]] | Hx];
            [right; now left | left; exists b'; auto | right; now right].
      + intros Hnd. apply IH2. rewrite Hp. now apply NoDup_addAll. }
  induction fs as [|f fs IH]; intros acc x; simpl.
  - split; [|auto]. split; [now right | intros [[f [b [[] _]]] | H]; assumption].
  - destruct (IH (fold_left collectBuilding (buildings f) acc) x) as [IH1 IH2].
    destruct (B (buildings f) acc x) as [B1' B2']. split.
    + rewrite IH1, B1'. split.
      * intros [[f' [b [Hf H]]] | [[b [Hb Hx]] | Hx]].
        -- left. exists f', b. auto.
        -- left. exists f, b. auto.
        -- now right.
      * intros [[f' [b [[<- | Hf] [Hb Hx]]]] | Hx].
        -- right. left. now exists b.
        -- left. exists f', b. auto.
        -- right. now right.
    + intros Hnd. apply IH2, B2', Hnd.
Qed.

Lemma collectOptions_sets (d : dataset) :
  let '(o, m, a) := collectOptions d in
  (forall x, In x o <-> exists f b, In f (features d) /\ In b (buildings f) /\ In x (order b))
  /\ (forall x, In x m <->
        exists f b, In f (features d) /\ In b (buildings f) /\ In x (morphology b))
  /\ (forall x, In x a <-> exists f b, In f (features d) /\ In b (buildings f) /\ In x (age b))
  /\ NoDup o /\ NoDup m /\ NoDup a.
Proof.
  pose proof (@collect_proj (fun acc => fst (fst acc)) order) as Ho.
  pose proof (@collect_proj (fun acc => snd (fst acc)) morphology) as Hm.
  pose proof (@collect_proj (fun acc => snd acc) age) as Ha.
  specialize (Ho ltac:(now intros [[? ?] ?] ?) (features d)
                 (JsSet.empty, JsSet.empty, JsSet.empty)).
  specialize (Hm ltac:(now intros [[? ?] ?] ?) (features d)
                 (JsSet.empty, JsSet.empty, JsSet.empty)).
  specialize (Ha ltac:(now intros [[? ?] ?] ?) (features d)
                 (JsSet.empty, JsSet.empty, JsSet.empty)).
  unfold collectOptions.
  destruct (fold_left _ (features d) _) as [[o m] a]. cbn [fst snd] in *.
  repeat split; try (intros H; first [apply Ho | apply Hm | apply Ha]; now left);
    try (intros H; first [apply (Ho x) in H | apply (Hm x) in H | apply (Ha x) in H];
         destruct H as [H | []]; exact H);
    first [apply (Ho "") | apply (Hm "") | apply (Ha "")]; constructor.
Qed.

Lemma compareUnits_antisym (x y : list N) :
  compareUnits y x = CompOpp (compareUnits x y).
Proof.
  revert y. induction x as [|a x IH]; intros [|b y]; simpl; try reflexivity.
  rewrite (N.compare_antisym a b). destruct (N.compare a b); simpl; auto.
Qed.

Lemma codeUnitLeb_total (a b : string) :
  codeUnitLeb a b = true \/ codeUnitLeb b a = true.
Proof.
  unfold codeUnitLeb. rewrite (compareUnits_antisym (units a) (units b)).
  destruct (compareUnits (units a) (units b)); simpl; auto.
Qed.

Lemma HdRel_sort_insert (v x : string) (l : list string) :
  HdRel lebString x l -> lebString x v -> HdRel lebString x (sort_insert v l).
Proof.
  intros H Hxv. destruct l as [|y l]; simpl; [now constructor|].
  destruct (codeUnitLeb v y); constructor; [assumption | now inversion H].
Qed.

Lemma Sorted_sort_insert (v : string) (l : list string) :
  Sorted lebString l -> Sorted lebString (sort_insert v l).
Proof.
  induction 1 as [|x l Hs IH Hd]; simpl; [repeat constructor|].
  destruct (codeUnitLeb v x) eqn:E.
  - constructor; [now constructor | now constructor].
  - constructor; [exact IH|]. apply HdRel_sort_insert; [exact Hd|].
    destruct (codeUnitLeb_total x v) as [H | H]; [exact H | congruence].
Qed.

Lemma Sorted_sort (l : list string) : Sorted lebString (sort l).
Proof.
  unfold sort. induction l as [|x l IH]; simpl; [constructor|].
  now apply Sorted_sort_insert.
Qed.

Lemma NoDup_sort_insert (v : string) (l : list string) :
  ~ In v l -> NoDup l -> NoDup (sort_insert v l).
Proof.
  induction l as [|x l IH]; simpl; intros Hv Hnd; [repeat constructor; auto|].
  destruct (codeUnitLeb v x); [now constructor|].
  inversion Hnd as [|? ? Hx Hnd']; subst. constructor.
  - rewrite In_sort_insert. intros [-> | H]; [apply Hv; now left | contradiction].
  - apply IH; [intros H; apply Hv; now right | assumption].
Qed.

Lemma NoDup_sort (l : list string) : NoDup l -> NoDup (sort l).
Proof.
  unfold sort. induction 1 as [|x l Hx Hnd IH]; simpl; [constructor|].
  apply NoDup_sort_insert; [|exact IH]. fold (sort l). now rewrite In_sort.
Qed.

(** The order is the one of the code units and not the one of the bytes:
    U+10000, whose units are a surrogate pair, comes before U+FF21. *)
Example sort_by_code_units :
  sort ["Ａ"; "𐀀"; "Ζ"] = ["Ζ"; "𐀀"; "Ａ"]
  /\ sort ["b"; "a"; "B"; "ab"; ""] = [""; "B"; "a"; "ab"; "b"].
Proof. split; reflexivity. Qed.

(** X15. What the option lists hold.  In both components the order and
    age options are exactly the order and age tags borne by some building
    of the dataset; the morphology options are the morphology tags borne
    by some building, in the doc_id-keyed component those of them that are
    on the allow-list. *)
Theorem option_lists_content (d : dataset) (v : string) :
  let tagIn (field : building -> list string) :=
    exists f b, In f (features d) /\ In b (buildings f) /\ In v (field b) in
  (In v (orderOptions (SiteMap.allOptions (Some d))) <-> tagIn order)
  /\ (In v (morphologyOptions (SiteMap.allOptions (Some d)))
      <-> In v allowedMorphologies /\ tagIn morphology)
  /\ (In v (ageOptions (SiteMap.allOptions (Some d))) <-> tagIn age)
  /\ (In v (orderOptions (SiteMapV4.allOptions (Some d))) <-> tagIn order)
  /\ (In v (morphologyOptions (SiteMapV4.allOptions (Some d))) <-> tagIn morphology)
  /\ (In v (ageOptions (SiteMapV4.allOptions (Some d))) <-> tagIn age).
Proof.
  cbv zeta. unfold SiteMap.allOptions, SiteMapV4.allOptions.
  pose proof (collectOptions_sets d) as H.
  destruct (collectOptions d) as [[o m] a].
  destruct H as [Ho [Hm [Ha _]]].
  cbn [orderOptions morphologyOptions ageOptions]. unfold JsSet.to_list.
  rewrite !In_sort, filter_In, includes_In, (Ho v), (Hm v), (Ha v). tauto.
Qed.

Lemma compareUnits_le (x y : list N) : compareUnits x y <> Gt -> unitsLe x y.
Proof.
  revert y. induction x as [|a x IH]; intros [|b y]; simpl; intros H.
  - constructor.
  - constructor.
  - now contradiction H.
  - destruct (N.compare_spec a b) as [-> | Hlt | Hgt].
    + apply unitsLe_eq. now apply IH.
    + now apply unitsLe_lt.
    + now contradiction H.
Qed.

Lemma lebString_order (a b : string) : lebString a b -> codeUnitOrder a b.
Proof.
  unfold lebString, codeUnitLeb, codeUnitOrder. intros H.
  apply compareUnits_le. intros E. rewrite E in H. discriminate.
Qed.

Lemma Sorted_order (l : list string) : Sorted lebString l -> Sorted codeUnitOrder l.
Proof.
  induction 1 as [|x l _ IH Hd]; constructor; [exact IH|].
  destruct Hd; constructor. now apply lebString_order.
Qed.

(** X16. Every option list of both components is sorted, each value
    not greater than the next in the order of the UTF-16 code units that
    [sort()] compares by, and has no repeated value. *)
Theorem option_lists_sorted (d : option dataset) :
  let good (l : list string) := Sorted codeUnitOrder l /\ NoDup l in
  good (orderOptions (SiteMap.allOptions d))
  /\ good (morphologyOptions (SiteMap.allOptions d))
  /\ good (ageOptions (SiteMap.allOptions d))
  /\ good (orderOptions (SiteMapV4.allOptions d))
  /\ good (morphologyOptions (SiteMapV4.allOptions d))
  /\ good (ageOptions (SiteMapV4.allOptions d)).
Proof.
  cbv zeta. destruct d as [d|].
  - unfold SiteMap.allOptions, SiteMapV4.allOptions.
    pose proof (collectOptions_sets d) as H.
    destruct (collectOptions d) as [[o m] a].
    destruct H as [_ [_ [_ [No [Nm Na]]]]].
    cbn [orderOptions morphologyOptions ageOptions]. unfold JsSet.to_list.
    repeat split; try apply Sorted_order, Sorted_sort; apply NoDup_sort; auto.
    now apply NoDup_filter.
  - simpl. repeat split; constructor.
Qed.

(** ** Further properties of the sanitizer *)

(** X17. Sanitizing is idempotent on the store: a second pass of the
    sanitizer over the same payload leaves the store of the first pass
    unchanged. *)
Theorem sanitize_twice (h : Loader.heap) (raw : Loader.payload) :
  Loader.sanitize (Loader.sanitize h raw) raw = Loader.sanitize h raw.
Proof.
  apply nth_error_ext. intros l. rewrite !sanitize_flat.
  destruct (sanitize_locs (Loader.locsOf raw) h) as [_ H1].
  destruct (sanitize_locs (Loader.locsOf raw)
              (fold_left Loader.sanitizeBuilding (Loader.locsOf raw) h)) as [_ H2].
  destruct (in_dec Nat.eq_dec l (Loader.locsOf raw)) as [Hin | Hout].
  - rewrite (proj1 (H2 l) Hin), (proj1 (H1 l) Hin). apply option_map_clean_idem.
  - now rewrite (proj2 (H2 l) Hout).
Qed.

Lemma cleanMember_get (b : Loader.rawBuilding) (a : attr) :
  Loader.rawGet (cleanBuilding b) a = cleanMember (Loader.rawGet b a).
Proof. now destruct a. Qed.

Lemma keepValue_valid (v : option string) :
  Loader.keepValue v = true <-> validEntry v.
Proof.
  unfold Loader.keepValue, validEntry, truthy. destruct v as [s|].
  - rewrite !andb_true_iff, !negb_true_iff, !String.eqb_neq. split.
    + intros [[H1 H2] H3]. now exists s.
    + intros [s' [[= <-] [H1 [H2 H3]]]]. auto.
  - split; [discriminate | intros [s [H _]]; discriminate].
Qed.

(** The sanitizer's filter leaves the valid entries, each as often as it
    occurs and in its place. *)
Lemma keptOf_filter (vs : list (option string)) :
  keptOf validEntry vs (filter Loader.keepValue vs).
Proof.
  induction vs as [|v vs IH]; simpl; [constructor|].
  destruct (Loader.keepValue v) eqn:E.
  - apply keptOf_keep; [now apply keepValue_valid | exact IH].
  - apply keptOf_drop; [|exact IH]. intros H. apply keepValue_valid in H. congruence.
Qed.

(** The relation determines what is kept. *)
Lemma keptOf_unique (valid : option string -> Prop) (vs k1 k2 : list (option string)) :
  keptOf valid vs k1 -> keptOf valid vs k2 -> k1 = k2.
Proof.
  intros H1. revert k2.
  induction H1 as [|v vs k Hv _ IH|v vs k Hv _ IH]; intros k2 H2;
    inversion H2; subst; try contradiction; auto.
  f_equal. now apply IH.
Qed.

(** X18. The state of a building after loading.  For every building
    object of the payload, each attribute that was an array is an array
    that holds exactly the valid entries of the received one (strings that
    are not empty, not undetermined in any letter case and not the
    missing-value marker), each as often as it was received and in the
    received order, and this determines the array; so it holds no [null],
    no empty string and no placeholder.  An attribute that was no array,
    and the doc_id, id and url, are as received. *)
Theorem loaded_building (h : Loader.heap) (raw : Loader.payload) (l : Loader.loc)
  (b : Loader.rawBuilding)
  (Hl : In l (Loader.locsOf raw)) (Hb : nth_error h l = Some b) :
  exists b',
    nth_error (fst (Loader.load h raw)) l = Some b'
    /\ Loader.raw_doc_id b' = Loader.raw_doc_id b
    /\ Loader.raw_id b' = Loader.raw_id b
    /\ Loader.raw_url b' = Loader.raw_url b
    /\ forall a,
         match Loader.rawGet b a with
         | Loader.Arr vs =>
             exists vs', Loader.rawGet b' a = Loader.Arr vs'
                         /\ keptOf validEntry vs vs'
                         /\ (forall kept, keptOf validEntry vs kept -> kept = vs')
                         /\ subseq vs' vs
                         /\ forall v, In v vs' <-> In v vs /\ validEntry v
         | Loader.Scalar v => Loader.rawGet b' a = Loader.Scalar v
         end.
Proof.
  exists (cleanBuilding b). split; [|repeat split].
  - unfold Loader.load. cbn [fst]. rewrite sanitize_flat.
    destruct (sanitize_locs (Loader.locsOf raw) h) as [_ H].
    rewrite (proj1 (H l) Hl), Hb. reflexivity.
  - intros a. rewrite cleanMember_get.
    destruct (Loader.rawGet b a) as [vs | v]; simpl; [|reflexivity].
    exists (filter Loader.keepValue vs). split; [reflexivity|].
    split; [apply keptOf_filter|].
    split; [intros kept Hk; exact (keptOf_unique Hk (keptOf_filter vs))|].
    split; [apply subseq_filter_self|]. intros v. apply cleaned_entries.
Qed.

Lemma loaded_building_witness :
  exists b',
    nth_error (fst (Loader.load rawHeap rawDelphi)) 0 = Some b'
    /\ Loader.raw_doc_id b' = "B1"
    /\ Loader.raw_order b' = Loader.Arr [Some "Doric"].
Proof.
  destruct (@loaded_building rawHeap rawDelphi 0 rawTemple
              (or_introl eq_refl) eq_refl) as [b' [H1 [H2 _]]].
  exists b'. split; [exact H1|]. split; [exact H2|].
  vm_compute in H1. injection H1 as <-. reflexivity.
Defined.

(** ** The description block *)

Lemma someLong_hasLongText (ev : option (list string)) :
  someLong ev = true <-> hasLongText ev.
Proof.
  unfold someLong, hasLongText. destruct ev as [ts|].
  - rewrite existsb_exists. split.
    + intros [t [Hin Hl]]. apply Nat.ltb_lt in Hl. now exists ts, t.
    + intros [ts' [t [[= <-] [Hin Hl]]]]. exists t. split; [assumption|].
      now apply Nat.ltb_lt.
  - split; [discriminate | intros [ts [t [H _]]]; discriminate].
Qed.

Lemma firstTwoLong_lines (ts : list string) :
  linesOf ts (map slice180 (firstn 2 (filter isLongText ts))).
Proof.
  split; [reflexivity|]. split.
  - rewrite length_map. apply firstn_le_length.
  - intros line Hin. apply in_map_iff in Hin. destruct Hin as [t [<- Ht]].
    split; [apply firstn_le_length|].
    assert (Hf : In t (filter isLongText ts)).
    { rewrite <- (firstn_skipn 2 (filter isLongText ts)). apply in_or_app. now left. }
    apply filter_In in Hf. destruct Hf as [Hin Hl]. apply Nat.ltb_lt in Hl.
    now exists t.
Qed.

(** A word moves into the piece at hand. *)
Lemma splitWhite_word (w rest : list N) (inRun : bool) (piece : list N) :
  isWord w ->
  splitWhite (w ++ rest) inRun piece = splitWhite rest false (rev w ++ piece).
Proof.
  intros [Hne Hw]. revert inRun piece.
  induction w as [|u w IH]; intros inRun piece; [now contradiction Hne|].
  simpl. rewrite (Hw u (or_introl eq_refl)).
  destruct w as [|u' w'].
  - reflexivity.
  - rewrite IH; [now rewrite <- app_assoc | discriminate |].
    intros x Hx. apply Hw. now right.
Qed.

(** A run of white space after a piece closes the piece, once. *)
Lemma splitWhite_gap (gap rest : list N) (piece : list N) :
  gap <> [] -> (forall u, In u gap -> isWhiteSpace u = true) ->
  splitWhite (gap ++ rest) false piece = rev piece :: splitWhite rest true [].
Proof.
  intros Hne Hg. destruct gap as [|u gap]; [now contradiction Hne|].
  simpl. rewrite (Hg u (or_introl eq_refl)). f_equal.
  assert (Hg' : forall x, In x gap -> isWhiteSpace x = true)
    by (intros x Hx; apply Hg; now right).
  clear Hne Hg. induction gap as [|x gap IH]; [reflexivity|].
  simpl. rewrite (Hg' x (or_introl eq_refl)). apply IH.
  intros y Hy. apply Hg'. now right.
Qed.

(** The pieces of words put together with white space are as many as
    the words. *)
Lemma pieces_of_words (w : list N) (rest : list (list N * list N))
  (inRun : bool) (piece : list N) :
  isWord w ->
  Forall (fun gw => fst gw <> [] /\ (forall u, In u (fst gw) -> isWhiteSpace u = true)
                    /\ isWord (snd gw)) rest ->
  length (splitWhite (spaced w rest) inRun piece) = S (length rest).
Proof.
  intros Hw Hrest. revert w inRun piece Hw.
  induction Hrest as [|[gap w'] rest [Hne [Hg Hw']] _ IH]; intros w inRun piece Hw.
  - simpl. rewrite <- (app_nil_r w). now rewrite (splitWhite_word [] inRun piece Hw).
  - cbn [spaced fst snd] in *.
    rewrite (splitWhite_word _ inRun piece Hw), (splitWhite_gap _ _ Hne Hg).
    cbn [length]. f_equal. now apply IH.
Qed.

(** X19. The description block of the building details.  Rendering
    throws exactly when one evidence member is missing and the other has a
    long text (the optional chaining guards the test, not the [filter]
    after it); the block is absent exactly when no member that is present
    has a long text; and else both members are present and the block shows,
    for each, at most two lines, each the first 180 code units of a long
    text of that member, the first long ones in their order.  A text is
    long when it splits at white space into more than five pieces, which
    for words separated by white space means more than five words. *)
Theorem description_block (style_ev date_ev : option (list string)) :
  (descriptionBlock style_ev date_ev = Throw TypeError <->
     (style_ev = None /\ hasLongText date_ev)
     \/ (date_ev = None /\ hasLongText style_ev))
  /\ (descriptionBlock style_ev date_ev = Ok None <->
      ~ hasLongText style_ev /\ ~ hasLongText date_ev)
  /\ (forall shown,
        descriptionBlock style_ev date_ev = Ok (Some shown) <->
        exists ss ds,
          style_ev = Some ss /\ date_ev = Some ds
          /\ (hasLongText style_ev \/ hasLongText date_ev)
          /\ linesOf ss (fst shown) /\ linesOf ds (snd shown))
  /\ (forall t w rest,
        units t = spaced w rest -> isWord w ->
        Forall (fun gw => fst gw <> []
                          /\ (forall u, In u (fst gw) -> isWhiteSpace u = true)
                          /\ isWord (snd gw)) rest ->
        (isLongText t = true <-> 5 < S (length rest))).
Proof.
  pose proof (someLong_hasLongText style_ev) as Hs.
  pose proof (someLong_hasLongText date_ev) as Hd.
  assert (Hs' : someLong style_ev = false <-> ~ hasLongText style_ev).
  { rewrite <- Hs. destruct (someLong style_ev); split; congruence. }
  assert (Hd' : someLong date_ev = false <-> ~ hasLongText date_ev).
  { rewrite <- Hd. destruct (someLong date_ev); split; congruence. }
  unfold descriptionBlock.
  split; [|split; [|split]].
  - destruct (someLong style_ev) eqn:Es, (someLong date_ev) eqn:Ed;
      destruct style_ev as [ss|], date_ev as [ds|]; simpl in *;
      try discriminate; intuition (try discriminate; try congruence).
  - destruct (someLong style_ev) eqn:Es, (someLong date_ev) eqn:Ed;
      destruct style_ev as [ss|], date_ev as [ds|]; simpl in *;
      try discriminate; intuition (try discriminate; try congruence).
  - intros shown. split.
    + intros E.
      destruct style_ev as [ss|], date_ev as [ds|];
        destruct (someLong _ || someLong _) eqn:El; cbn [firstTwoLong] in E;
        try discriminate E.
      exists ss, ds. split; [reflexivity|]. split; [reflexivity|].
      assert (S : shown = (map slice180 (firstn 2 (filter isLongText ss)),
                           map slice180 (firstn 2 (filter isLongText ds))))
        by congruence.
      rewrite S. cbn [fst snd].
      split; [|split; apply firstTwoLong_lines].
      apply orb_true_iff in El. tauto.
    + intros [ss [ds [-> [-> [Hl [[L1 _] [L2 _]]]]]]].
      assert (El : someLong (Some ss) || someLong (Some ds) = true)
        by (apply orb_true_iff; tauto).
      rewrite El. cbn [firstTwoLong]. rewrite <- L1, <- L2. now destruct shown.
  - intros t w rest Hu Hw Hrest. unfold isLongText.
    rewrite Nat.ltb_lt, Hu, (pieces_of_words false [] Hw Hrest). reflexivity.
Qed.

(** A building without style evidence whose date evidence has a text of
    six words. *)
Lemma description_block_witness :
  hasLongText (Some ["a temple with six Doric columns"])
  /\ descriptionBlock None (Some ["a temple with six Doric columns"])
     = Throw TypeError.
Proof.
  assert (H : hasLongText (Some ["a temple with six Doric columns"])).
  { exists ["a temple with six Doric columns"], "a temple with six Doric columns".
    split; [reflexivity|]. split; [now left|]. vm_compute. lia. }
  split; [exact H|].
  exact (proj2 (proj1 (description_block None
                         (Some ["a temple with six Doric columns"])))
           (or_introl (conj eq_refl H))).
Defined.

(** Three words are not a long text, whatever their number of characters,
    and then a missing member does no harm. *)
Example short_text_renders_nothing :
  isLongText "a long description" = false
  /\ descriptionBlock None (Some ["a long description"]) = Ok None.
Proof. split; reflexivity. Qed.

(** ** The dropdown flags *)

(** X20. [toggleDropdown] is presentation only: it flips the flag of its
    key, two toggles of the same key restore the state, and the filters,
    the period, the selection and the derived dataset are untouched. *)
Theorem toggle_dropdown (k : SiteMap.key) (st : SiteMap.state) :
  SiteMap.toggleDropdown k (SiteMap.toggleDropdown k st) = st
  /\ SiteMap.filteredData (SiteMap.toggleDropdown k st) = SiteMap.filteredData st
  /\ SiteMap.recompute (SiteMap.toggleDropdown k st)
     = match SiteMap.recompute st with
       | Ok st' => Ok (SiteMap.toggleDropdown k st')
       | Throw e => Throw e
       end.
Proof.
  split; [|split].
  - destruct st as [d s b p h f [o m a]], k; unfold SiteMap.toggleDropdown; simpl;
      now rewrite negb_involutive.
  - reflexivity.
  - unfold SiteMap.recompute.
    change (SiteMap.filteredData (SiteMap.toggleDropdown k st))
      with (SiteMap.filteredData st).
    destruct (SiteMap.filteredData st) as [fd|e]; [|reflexivity]. f_equal.
    unfold SiteMap.clearIfFilteredOut.
    change (SiteMap.selectedBuildingDocId (SiteMap.toggleDropdown k st))
      with (SiteMap.selectedBuildingDocId st).
    destruct (SiteMap.selectedBuildingDocId st) as [sel|]; [|reflexivity].
    destruct (truthy (Some sel)); [|reflexivity]. cbv zeta.
    now destruct (negb _).
Qed.

(** ** The second filter of [SiteMap_v4.js]

    The building details of [SiteMap_v4.js] filter the values of an
    attribute once more, with the test of the sanitizer, before they are
    shown. *)

(** X21. On a loaded building the second filter removes nothing: every
    array attribute of a building object of the payload is, after loading,
    a fixed point of the sanitizer's filter. *)
Theorem display_filter_redundant (h : Loader.heap) (raw : Loader.payload)
  (l : Loader.loc) (b' : Loader.rawBuilding) (a : attr) (vs' : list (option string))
  (Hl : In l (Loader.locsOf raw))
  (Hb : nth_error (fst (Loader.load h raw)) l = Some b')
  (Ha : Loader.rawGet b' a = Loader.Arr vs') :
  filter Loader.keepValue vs' = vs'.
Proof.
  unfold Loader.load in Hb. cbn [fst] in Hb. rewrite sanitize_flat in Hb.
  destruct (sanitize_locs (Loader.locsOf raw) h) as [_ H].
  rewrite (proj1 (H l) Hl) in Hb.
  destruct (nth_error h l) as [b|]; [|discriminate Hb].
  injection Hb as <-. rewrite cleanMember_get in Ha.
  destruct (Loader.rawGet b a) as [vs | v]; [|discriminate Ha].
  injection Ha as <-. apply filter_idem.
Qed.

Lemma display_filter_redundant_witness :
  In 0 (Loader.locsOf rawDelphi)
  /\ filter Loader.keepValue [Some "Doric"] = [Some "Doric"].
Proof.
  assert (Hl : In 0 (Loader.locsOf rawDelphi)) by (left; reflexivity).
  split; [exact Hl|].
  exact (@display_filter_redundant rawHeap rawDelphi 0 _ Order [Some "Doric"]
           Hl eq_refl eq_refl).
Defined.
